(** * Decorator: CodeMirror 5 style decorations on top of CodeMirror 6

    A shallow embedding of
    [packages/editor/CodeMirror/CodeMirror5Emulation/Decorator.ts].

    The file is organised as follows.
    - A model of the parts of the host editor library the decorator calls
      (documents and lines, decoration values, range sets, the range set
      builder).  These are external collaborators; they are modelled from
      their documented contracts.
    - The effect registry and the range remap rule.
    - The decorator itself: the decoration cache, the effect reducer, the
      overlay engine and the facade, written in a small state and error
      monad.
    - The notions the statements use, then the properties. *)

From Stdlib Require Import ZArith Lia Ascii String.
From Stdlib Require Import Sorting.Sorted Sorting.Permutation.
From stdpp Require Import gmap strings list.

Open Scope Z_scope.

(** ** Results of fallible code *)

Inductive Error :=
  | RangeError (msg : string)
  | TypeError (msg : string)
  | PlainError (msg : string).

(** [Diverges] is only produced by the fuelled loops of the overlay engine,
    when the fuel runs out. *)
Inductive Result (A : Type) :=
  | Ok (a : A)
  | Throw (e : Error)
  | Diverges.
Arguments Ok {A} a.
Arguments Throw {A} e.
Arguments Diverges {A}.

(** ** The interface [DecorationRange] *)

Class DecorationRange (T : Type) := {
  from : T -> Z;
  to : T -> Z;
  withRange : T -> Z -> Z -> T   (* [{ ...range, from, to }] *)
}.

(** ** Host library *)

(** [s.length].  Strings are modelled by their characters one for one: a
    character of the model is a character code below 256. *)
Definition strlen (s : string) : Z := Z.of_nat (String.length s).

(** *** Documents *)

Record Line := {
  line_from : Z;
  line_to : Z;
  number : Z;
  text : string
}.

#[export] Instance Line_range : DecorationRange Line := {
  from := line_from;
  to := line_to;
  withRange l f t :=
    {| line_from := f; line_to := t; number := number l; text := text l |}
}.

(** A document is its list of lines; consecutive lines are separated by one
    line break character. *)
Definition Text := list string.

Fixpoint splitLines (cur : string) (s : string) : list string :=
  match s with
  | EmptyString => [String.rev cur]
  | String c rest =>
      if Ascii.eqb c "010"%char
      then String.rev cur :: splitLines EmptyString rest
      else splitLines (String c cur) rest
  end.

Definition Text_of (s : string) : Text := splitLines EmptyString s.

Fixpoint lineSeq (lines : list string) (start n : Z) : list Line :=
  match lines with
  | [] => []
  | l :: rest =>
      {| line_from := start; line_to := start + strlen l;
         number := n; text := l |}
      :: lineSeq rest (start + strlen l + 1) (n + 1)
  end.

Definition Text_allLines (doc : Text) : list Line := lineSeq doc 0 1.

Definition Text_lines (doc : Text) : Z := Z.of_nat (length doc).

Definition Text_length (doc : Text) : Z :=
  fold_right (fun l acc => strlen l + 1 + acc) 0 doc - 1.

(** [doc.line(n)], one-indexed. *)
Definition Text_line (doc : Text) (n : Z) : Result Line :=
  if (n <? 1) || (Text_lines doc <? n)
  then Throw (RangeError "Invalid line number")
  else match Text_allLines doc !! Z.to_nat (n - 1) with
       | Some l => Ok l
       | None => Throw (RangeError "Invalid line number")
       end.

(** [doc.lineAt(pos)]: the line around position [pos]. *)
Definition Text_lineAt (doc : Text) (pos : Z) : Result Line :=
  if (pos <? 0) || (Text_length doc <? pos)
  then Throw (RangeError "Invalid position")
  else match List.find (fun l => pos <=? line_to l) (Text_allLines doc) with
       | Some l => Ok l
       | None => Throw (RangeError "Invalid position")
       end.

(** *** Change descriptions *)

(** [empty] is false when the description holds actual changes. *)
Record ChangeDesc := { mapPos : Z -> Z; empty : bool }.

Definition ChangeDesc_empty : ChangeDesc :=
  {| mapPos := fun p => p; empty := true |}.

(** *** Decoration values *)

(** A DOM element is opaque; only its object identity is observed. *)
Definition HTMLElement := nat.

Record LineWidgetOptions := {
  className : option string;
  above : option bool
}.

Record WidgetDecorationWrapper := {
  element : HTMLElement;
  options : LineWidgetOptions
}.

(** The spec object a decoration is created from.  [spec_attributes_class]
    is [spec.attributes.class]; [spec_class] is [spec.class]. *)
Record DecorationSpec := {
  spec_attributes_class : option string;
  spec_class : option string;
  spec_id : option Z;
  spec_widget : option WidgetDecorationWrapper;
  spec_side : option Z;
  spec_block : option bool
}.

Inductive DecorationKind := LineDecoration | MarkDecoration | PointDecoration.

(** [ref] is the object identity of the decoration (its allocation number). *)
Record Decoration := {
  ref : nat;
  kind : DecorationKind;
  spec : DecorationSpec
}.

Definition truthy (b : option bool) : bool :=
  match b with Some true => true | _ => false end.

Definition Decoration_line (r : nat) (attributes : string) (id : option Z)
  : Decoration :=
  {| ref := r; kind := LineDecoration;
     spec := {| spec_attributes_class := Some attributes; spec_class := None;
                spec_id := id; spec_widget := None; spec_side := None;
                spec_block := None |} |}.

Definition Decoration_mark (r : nat) (attributes : string) (id : option Z)
  : Decoration :=
  {| ref := r; kind := MarkDecoration;
     spec := {| spec_attributes_class := Some attributes; spec_class := None;
                spec_id := id; spec_widget := None; spec_side := None;
                spec_block := None |} |}.

Definition Decoration_widget (r : nat) (w : WidgetDecorationWrapper)
  (side : Z) (block : bool) : Decoration :=
  {| ref := r; kind := PointDecoration;
     spec := {| spec_attributes_class := None; spec_class := None;
                spec_id := None; spec_widget := Some w; spec_side := Some side;
                spec_block := Some block |} |}.

(** The class a line or mark decoration renders with: [spec.class] when it is
    a non-empty string, [spec.attributes.class] otherwise. *)
Definition renderedClass (d : Decoration) : option string :=
  match spec_class (spec d) with
  | Some c => if String.eqb c EmptyString then spec_attributes_class (spec d) else Some c
  | None => spec_attributes_class (spec d)
  end.

Definition option_string_eqb (a b : option string) : bool :=
  match a, b with
  | Some x, Some y => String.eqb x y
  | None, None => true
  | _, _ => false
  end.

(** [value.eq(other)].  Line and mark decorations compare by class; the
    identity is not part of the comparison.  A widget decoration equals only
    itself, because [WidgetDecorationWrapper] does not override [eq]. *)
Definition Decoration_eq (a b : Decoration) : bool :=
  match kind a, kind b with
  | LineDecoration, LineDecoration =>
      option_string_eqb (spec_class (spec a)) (spec_class (spec b))
      && option_string_eqb (spec_attributes_class (spec a))
                           (spec_attributes_class (spec b))
  | MarkDecoration, MarkDecoration =>
      Nat.eqb (ref a) (ref b)
      || option_string_eqb (renderedClass a) (renderedClass b)
  | PointDecoration, PointDecoration => Nat.eqb (ref a) (ref b)
  | _, _ => false
  end.

(** The side a decoration's start is ordered by inside a range set. *)
Definition startSide (d : Decoration) : Z :=
  match kind d with
  | LineDecoration => -200000000
  | MarkDecoration => 500000000
  | PointDecoration =>
      match spec_side (spec d) with
      | Some sd =>
          if truthy (spec_block (spec d))
          then (if 0 <? sd then sd + 300000000 else sd - 400000000)
          else (if 0 <? sd then sd + 100000000 else sd - 100000000)
      | None => -100000000
      end
  end.

(** The side a decoration's end is ordered by. *)
Definition endSide (d : Decoration) : Z :=
  match kind d with
  | LineDecoration => -200000000
  | MarkDecoration => -600000000
  | PointDecoration => startSide d
  end.

(** *** Ranges and range sets *)

Record Range := {
  range_from : Z;
  range_to : Z;
  value : Decoration
}.

#[export] Instance Range_range : DecorationRange Range := {
  from := range_from;
  to := range_to;
  withRange r f t := {| range_from := f; range_to := t; value := value r |}
}.

(** [decoration.range(from, to)].  A mark decoration refuses an empty range,
    a line decoration refuses a non-empty one. *)
Definition Decoration_range (d : Decoration) (f t : Z) : Result Range :=
  match kind d with
  | MarkDecoration =>
      if t <=? f
      then Throw (RangeError "Mark decorations may not be empty")
      else Ok {| range_from := f; range_to := t; value := d |}
  | LineDecoration =>
      if negb (t =? f)
      then Throw (RangeError "Line decoration ranges must be zero-length")
      else Ok {| range_from := f; range_to := t; value := d |}
  | PointDecoration => Ok {| range_from := f; range_to := t; value := d |}
  end.

(** A decoration set is the list of its ranges, in the order the set
    iterates them: by [from], then by [startSide].  How the library spreads
    overlapping ranges over layers and chunks is not modelled. *)
Definition DecorationSet := list Range.

Definition Decoration_none : DecorationSet := [].

Definition rangeBefore (a b : Range) : bool :=
  (from a <? from b)
  || ((from a =? from b) && (startSide (value a) <? startSide (value b))).

(** [set.update({ add: [r] })]: the new range goes in front of the first
    range that does not sort strictly before it. *)
Fixpoint RangeSet_add (r : Range) (set : DecorationSet) : DecorationSet :=
  match set with
  | [] => [r]
  | x :: rest => if rangeBefore x r then x :: RangeSet_add r rest
                 else r :: x :: rest
  end.

(** [set.update({ filter })]. *)
Definition RangeSet_filter (keep : Z -> Z -> Decoration -> bool)
  (set : DecorationSet) : DecorationSet :=
  List.filter (fun r => keep (from r) (to r) (value r)) set.

(** Where a change takes one range.  A zero-width range moves with its
    position.  A range with content moves with both ends, and is dropped
    when the ends cross or when it collapses and its value does not include
    its ends, as a mark decoration does not.  A change is described by its
    position map alone: the library also drops a line decoration or a widget
    whose position lies inside deleted text, which no change of this model
    does. *)
Definition Range_map (changes : ChangeDesc) (r : Range) : option Range :=
  let f := mapPos changes (from r) in
  let t := mapPos changes (to r) in
  if from r =? to r then Some (withRange r f f)
  else if (t <? f)
          || ((f =? t) && (0 <? startSide (value r))
              && (endSide (value r) <=? 0))
       then None
       else Some (withRange r f t).

(** [set.map(changes)]: the set itself when there are no changes; otherwise
    the ranges the change leaves, each where the change takes it. *)
Definition RangeSet_map (changes : ChangeDesc) (set : DecorationSet)
  : DecorationSet :=
  if empty changes then set
  else
    flat_map (fun r => match Range_map changes r with
                       | Some r' => [r']
                       | None => []
                       end) set.

(** [set.between(from, to, f)]: the ranges that touch [from..to].  The
    library visits them layer by layer; here they come in the order of the
    set. *)
Definition RangeSet_between (f t : Z) (set : DecorationSet) : list Range :=
  List.filter (fun r => (from r <=? t) && (f <=? to r)) set.

(** [RangeSetBuilder]: ranges must arrive sorted by [from] and [startSide];
    the builder throws at the first range that sorts before the one added
    last.  [lastFrom] starts far to the left of every position. *)
Fixpoint RangeSetBuilder_addAll (lastFrom : Z) (last : option Decoration)
  (rs : list Range) : Result DecorationSet :=
  match rs with
  | [] => Ok []
  | r :: rest =>
      let diff := if negb (from r - lastFrom =? 0) then from r - lastFrom
                  else match last with
                       | Some l => startSide (value r) - startSide l
                       | None => 0
                       end in
      if diff <? 0
      then Throw (PlainError
             "Ranges must be added sorted by `from` position and `startSide`")
      else match RangeSetBuilder_addAll (from r) (Some (value r)) rest with
           | Ok set => Ok (r :: set)
           | Throw e => Throw e
           | Diverges => Diverges
           end
  end.

Definition RangeSetBuilder_finish (rs : list Range) : Result DecorationSet :=
  RangeSetBuilder_addAll (-1000000000) None rs.

(** ** Effect registry *)

(** The remap rule shared by the effects that carry a range. *)
Definition mapRangeConfig_map {T} `{DecorationRange T}
  (range : T) (change : ChangeDesc) : T :=
  let f := mapPos change (from range) in
  let t := mapPos change (to range) in
  withRange range (Z.min f t) (Z.max f t).

Record CssDecorationSpec := {
  css_from : Z;
  css_to : Z;
  cssClass : string;
  css_id : option Z
}.

#[export] Instance CssDecorationSpec_range : DecorationRange CssDecorationSpec := {
  from := css_from;
  to := css_to;
  withRange v f t :=
    {| css_from := f; css_to := t; cssClass := cssClass v; css_id := css_id v |}
}.

Record LineWidgetDecorationSpec := {
  lw_from : Z;
  lw_to : Z;
  lw_element : HTMLElement;
  lw_options : LineWidgetOptions
}.

#[export] Instance LineWidgetDecorationSpec_range
  : DecorationRange LineWidgetDecorationSpec := {
  from := lw_from;
  to := lw_to;
  withRange v f t :=
    {| lw_from := f; lw_to := t; lw_element := lw_element v;
       lw_options := lw_options v |}
}.

(** An effect is tagged with the effect type it was made [of].
    [foreignEffect] stands for the effects of other extensions. *)
Inductive StateEffect :=
  | addLineDecorationEffect (v : CssDecorationSpec)
  | removeLineDecorationEffect (v : CssDecorationSpec)
  | addMarkDecorationEffect (v : CssDecorationSpec)
  | removeMarkDecorationEffect (v : CssDecorationSpec)
  | refreshOverlaysEffect
  | addLineWidgetEffect (v : LineWidgetDecorationSpec)
  | removeLineWidgetEffect (el : HTMLElement)
  | foreignEffect.

(** [effect.map(change)]: the [map] given to [StateEffect.define], the
    identity for an effect type defined without one. *)
Definition StateEffect_map (e : StateEffect) (change : ChangeDesc)
  : StateEffect :=
  match e with
  | addLineDecorationEffect v =>
      addLineDecorationEffect (mapRangeConfig_map v change)
  | removeLineDecorationEffect v =>
      removeLineDecorationEffect (mapRangeConfig_map v change)
  | addMarkDecorationEffect v =>
      addMarkDecorationEffect (mapRangeConfig_map v change)
  | removeMarkDecorationEffect v =>
      removeMarkDecorationEffect (mapRangeConfig_map v change)
  | refreshOverlaysEffect => refreshOverlaysEffect
  | addLineWidgetEffect v => addLineWidgetEffect (mapRangeConfig_map v change)
  | removeLineWidgetEffect el => removeLineWidgetEffect el
  | foreignEffect => foreignEffect
  end.

(** The range an effect's value carries, if its value type has one. *)
Definition StateEffect_range (e : StateEffect) : option (Z * Z) :=
  match e with
  | addLineDecorationEffect v | removeLineDecorationEffect v
  | addMarkDecorationEffect v | removeMarkDecorationEffect v =>
      Some (from v, to v)
  | addLineWidgetEffect v => Some (from v, to v)
  | refreshOverlaysEffect | removeLineWidgetEffect _ | foreignEffect => None
  end.

(** The six effects that change the canonical decoration set. *)
Definition isDecorationMutation (e : StateEffect) : bool :=
  match e with
  | refreshOverlaysEffect | foreignEffect => false
  | _ => true
  end.

Definition isRefresh (e : StateEffect) : bool :=
  match e with refreshOverlaysEffect => true | _ => false end.

(** ** The editor and the decorator *)

Record Transaction := {
  changes : ChangeDesc;
  effects : list StateEffect;
  tr_doc : Text                     (* [transaction.state.doc] *)
}.

Record EditorView := {
  doc : Text;                       (* [state.doc] *)
  visibleRanges : list (Z * Z);
  tabSize : Z;                      (* [state.tabSize] *)
  indentUnit : Z                    (* [state.facet(indentUnit).length] *)
}.

Record StringStream := {
  stream_string : string;
  pos : Z;
  stream_tabSize : Z;
  stream_indentUnit : Z
}.

Definition StringStream_eol (r : StringStream) : bool :=
  strlen (stream_string r) <=? pos r.

(** An overlay.  [token] reads the stream and the parser state and returns
    the token, the stream position it leaves and the parser state it leaves
    (the source's [token] moves [reader.pos] and updates [state] in place).
    [emptyState] is the [{}] used when the overlay has no [startState]. *)
Record StreamParser := {
  ParserState : Type;
  emptyState : ParserState;
  startState : option (Z -> ParserState);
  token : StringStream -> ParserState -> option string * Z * ParserState
}.

Record Decorator := {
  editor : EditorView;
  _effectDecorations : DecorationSet;
  _nextLineWidgetId : Z;
  _decorationCache : gmap string Decoration;
  _overlays : list StreamParser;
  nextRef : nat                     (* allocation counter for decorations *)
}.

Definition set_effectDecorations (ds : DecorationSet) (s : Decorator) :=
  {| editor := editor s; _effectDecorations := ds;
     _nextLineWidgetId := _nextLineWidgetId s;
     _decorationCache := _decorationCache s; _overlays := _overlays s;
     nextRef := nextRef s |}.

Definition set_nextLineWidgetId (n : Z) (s : Decorator) :=
  {| editor := editor s; _effectDecorations := _effectDecorations s;
     _nextLineWidgetId := n;
     _decorationCache := _decorationCache s; _overlays := _overlays s;
     nextRef := nextRef s |}.

Definition set_decorationCache (c : gmap string Decoration) (s : Decorator) :=
  {| editor := editor s; _effectDecorations := _effectDecorations s;
     _nextLineWidgetId := _nextLineWidgetId s;
     _decorationCache := c; _overlays := _overlays s;
     nextRef := nextRef s |}.

Definition set_nextRef (n : nat) (s : Decorator) :=
  {| editor := editor s; _effectDecorations := _effectDecorations s;
     _nextLineWidgetId := _nextLineWidgetId s;
     _decorationCache := _decorationCache s; _overlays := _overlays s;
     nextRef := n |}.

(** [Decorator.create(editor)] *)
Definition create (e : EditorView) : Decorator :=
  {| editor := e; _effectDecorations := Decoration_none;
     _nextLineWidgetId := 0; _decorationCache := ∅; _overlays := [];
     nextRef := 0%nat |}.

(** ** The monad of the decorator's methods

    A method reads and writes the decorator and may throw; what it wrote
    before throwing stays written. *)

Definition M (A : Type) : Type := Decorator -> Result A * Decorator.

Definition ret {A} (a : A) : M A := fun s => (Ok a, s).

Definition bind {A B} (m : M A) (k : A -> M B) : M B :=
  fun s =>
    match m s with
    | (Ok a, s') => k a s'
    | (Throw e, s') => (Throw e, s')
    | (Diverges, s') => (Diverges, s')
    end.

Definition get : M Decorator := fun s => (Ok s, s).
Definition modify (f : Decorator -> Decorator) : M unit :=
  fun s => (Ok tt, f s).
Definition lift {A} (r : Result A) : M A := fun s => (r, s).
Definition throw {A} (e : Error) : M A := lift (Throw e).

Notation "'do' x <- c ; k" := (bind c (fun x => k))
  (at level 10, x name, c at level 99, k at level 200).
Notation "'exec' c ; k" := (bind c (fun _ => k))
  (at level 10, c at level 99, k at level 200).

(** A [for ... of] loop that threads an accumulator. *)
Fixpoint forM {A B} (l : list A) (acc : B) (body : B -> A -> M B) : M B :=
  match l with
  | [] => ret acc
  | x :: rest => do acc' <- body acc x ; forM rest acc' body
  end.

(** ** Decoration cache *)

Definition classNameToCssDecoration (className : string)
  (isLineDecoration : bool) (id : option Z) : M Decoration :=
  do s <- get ;
  match _decorationCache s !! className, id with
  | Some cached, None => ret cached
  | _, _ =>
      let decoration :=
        if isLineDecoration then Decoration_line (nextRef s) className id
        else Decoration_mark (nextRef s) className id in
      exec modify (set_nextRef (S (nextRef s))) ;
      exec modify (fun s => set_decorationCache
                      (<[className := decoration]> (_decorationCache s)) s) ;
      ret decoration
  end.

(** ** Effect reducer *)

Definition isSome {A} (o : option A) : bool :=
  match o with Some _ => true | None => false end.

Definition option_Z_eqb (a b : option Z) : bool :=
  match a, b with
  | Some x, Some y => x =? y
  | None, None => true
  | _, _ => false
  end.

Definition widgetElement (d : Decoration) : option HTMLElement :=
  match spec_widget (spec d) with
  | Some w => Some (element w)
  | None => None
  end.

Definition option_nat_eqb (a b : option nat) : bool :=
  match a, b with
  | Some x, Some y => Nat.eqb x y
  | None, None => true
  | _, _ => false
  end.

(** The branch of [updateEffectDecorations] shared by the two add effects. *)
Definition addCssDecoration (isLineDecoration : bool) (v : CssDecorationSpec)
  (decorations : DecorationSet) : M DecorationSet :=
  do decoration <- classNameToCssDecoration (cssClass v) isLineDecoration
                  (css_id v) ;
  let f := from v in
  (* Line decorations are specified to have a size-zero range. *)
  let t := if isLineDecoration then f else to v in
  do r <- lift (Decoration_range decoration f t) ;
  ret (RangeSet_add r decorations).

(** The branch shared by the two remove effects. *)
Definition removeCssDecoration (isRemoveLine : bool) (tr : Transaction)
  (v : CssDecorationSpec) (decorations : DecorationSet) : M DecorationSet :=
  let doc := tr_doc tr in
  do lineFrom <- lift (Text_lineAt doc (from v)) ;
  let targetFrom := from lineFrom in
  do lineTo <- lift (Text_lineAt doc (to v)) ;
  let targetTo := to lineTo in
  let targetId := css_id v in
  do targetDecoration <- classNameToCssDecoration (cssClass v) isRemoveLine None ;
  ret (RangeSet_filter
         (fun f t value =>
            if isSome targetId
            then negb (option_Z_eqb (spec_id (spec value)) (css_id v))
            else
              let isInRange := (targetFrom <=? f) && (t <=? targetTo) in
              isInRange && Decoration_eq value targetDecoration)
         decorations).

Definition applyEffect (tr : Transaction) (decorations : DecorationSet)
  (effect : StateEffect) : M DecorationSet :=
  match effect with
  | addMarkDecorationEffect v => addCssDecoration false v decorations
  | addLineDecorationEffect v => addCssDecoration true v decorations
  | removeLineDecorationEffect v => removeCssDecoration true tr v decorations
  | removeMarkDecorationEffect v => removeCssDecoration false tr v decorations
  | addLineWidgetEffect v =>
      let options := lw_options v in
      do s <- get ;
      let decoration :=
        Decoration_widget (nextRef s)
          {| element := lw_element v; options := options |}
          (if truthy (above options) then -1 else 1) true in
      exec modify (set_nextRef (S (nextRef s))) ;
      let p := if truthy (above options) then from v else to v in
      do r <- lift (Decoration_range decoration p p) ;
      ret (RangeSet_add r decorations)
  | removeLineWidgetEffect el =>
      ret (RangeSet_filter
             (fun _from _to value =>
                negb (option_nat_eqb (widgetElement value) (Some el)))
             decorations)
  | refreshOverlaysEffect | foreignEffect => ret decorations
  end.

Definition updateEffectDecorations (transactions : list Transaction)
  : M DecorationSet :=
  do s <- get ;
  do decorations <-
    forM transactions (_effectDecorations s)
      (fun decorations transaction =>
         (* Update decoration positions *)
         let decorations := RangeSet_map (changes transaction) decorations in
         (* Add or remove decorations *)
         forM (effects transaction) decorations (applyEffect transaction)) ;
  exec modify (set_effectDecorations decorations) ;
  ret decorations.

(** [editor.dispatch({ effects })]: a transaction without document changes,
    reduced by the state field. *)
Definition dispatch (effs : list StateEffect) : M unit :=
  do s <- get ;
  exec updateEffectDecorations
    [ {| changes := ChangeDesc_empty; effects := effs;
         tr_doc := doc (editor s) |} ] ;
  ret tt.

(** ** Overlay engine *)

(** The characters [\s] matches, among the character codes below 256: tab
    to carriage return, the space and the no-break space. *)
Definition isWhitespace (c : ascii) : bool :=
  let n := nat_of_ascii c in
  ((9 <=? n) && (n <=? 13))%nat || Nat.eqb n 32 || Nat.eqb n 160.

(** [s.split(/\s+/)]: the pieces between maximal runs of whitespace,
    empty first and last pieces included. *)
Fixpoint splitWhitespace (cur : string) (inRun : bool) (s : string)
  : list string :=
  match s with
  | EmptyString => [String.rev cur]
  | String c rest =>
      if isWhitespace c
      then (if inRun then splitWhitespace EmptyString true rest
            else String.rev cur :: splitWhitespace EmptyString true rest)
      else splitWhitespace (String c cur) false rest
  end.

Definition String_split_whitespace (s : string) : list string :=
  splitWhitespace EmptyString false s.

Definition startsWith (p s : string) : bool := String.prefix p s.

Definition makeDecoration (tokenName : string) (start stop : Z) : M Range :=
  let isLineDecoration := startsWith "line-" tokenName in
  (* CM5 prefixes class names with cm- *)
  let tokenName := ("cm-" ++ tokenName)%string in
  do decoration <- classNameToCssDecoration tokenName isLineDecoration None ;
  lift (Decoration_range decoration start stop).

(** A non-empty string is the only truthy token. *)
Definition tokenClassNames (tok : option string) : list string :=
  match tok with
  | Some t => if String.eqb t EmptyString then [] else String_split_whitespace t
  | None => []
  end.

Definition pushTokenDecorations (line : Line) (lastPos readerPos : Z)
  (newDecorations : list Range) (tok : option string) : M (list Range) :=
  forM (tokenClassNames tok) newDecorations
    (fun newDecorations className =>
       if startsWith "line-" className
       then
         do r <- makeDecoration className (from line) (from line) ;
         ret (newDecorations ++ [r])
       else
         let f := lastPos + from line in
         let t := readerPos + from line in
         do r <- makeDecoration className f t ;
         ret (newDecorations ++ [r])).

Definition notAdvancedError : Error :=
  PlainError "Mark decoration position did not increase -- overlays must advance with each call to .token()".

(** The [StringStream] over a line, at position [p]. *)
Definition lineReader (view : EditorView) (line : Line) (p : Z)
  : StringStream :=
  {| stream_string := text line; pos := p;
     stream_tabSize := tabSize view;
     stream_indentUnit := indentUnit view |}.

(** The [while (!reader.eol())] loop over one line.  At the head of the loop
    [reader.pos] equals [lastPos]. *)
Fixpoint scanLine (fuel : nat) (overlay : StreamParser) (view : EditorView)
  (line : Line) (lastPos : Z) (state : ParserState overlay)
  (newDecorations : list Range)
  : M (ParserState overlay * list Range) :=
  let reader := lineReader view line lastPos in
  if StringStream_eol reader then ret (state, newDecorations)
  else
    match fuel with
    | O => lift Diverges
    | S fuel' =>
        let '(tok, readerPos, state') := token overlay reader state in
        do newDecorations' <-
          pushTokenDecorations line lastPos readerPos newDecorations tok ;
        if readerPos =? lastPos then throw notAdvancedError
        else scanLine fuel' overlay view line readerPos state' newDecorations'
    end.

(** The body of [for (let i = fromLineNumber; i <= toLineNumber; i++)]. *)
Definition scanLineNumber (fuel : nat) (overlay : StreamParser)
  (view : EditorView) (acc : ParserState overlay * list Range) (i : Z)
  : M (ParserState overlay * list Range) :=
  do line <- lift (Text_line (doc view) i) ;
  scanLine fuel overlay view line 0 (fst acc) (snd acc).

(** The body of [for (const { from, to } of view.visibleRanges)]. *)
Definition scanVisibleRange (fuel : nat) (overlay : StreamParser)
  (view : EditorView) (acc : ParserState overlay * list Range)
  (range : Z * Z) : M (ParserState overlay * list Range) :=
  do fromLine <- lift (Text_lineAt (doc view) (fst range)) ;
  do toLine <- lift (Text_lineAt (doc view) (snd range)) ;
  let fromLineNumber := number fromLine in
  let toLineNumber := number toLine in
  forM (seqZ fromLineNumber (toLineNumber - fromLineNumber + 1)) acc
    (scanLineNumber fuel overlay view).

(** [overlay.startState?.(indentSize) ?? {}] *)
Definition overlayStartState (overlay : StreamParser) (view : EditorView)
  : ParserState overlay :=
  let indentSize := indentUnit view in
  match startState overlay with
  | Some start => start indentSize
  | None => emptyState overlay
  end.

(** The body of [for (const overlay of this._overlays)]. *)
Definition scanOverlay (fuel : nat) (view : EditorView)
  (newDecorations : list Range) (overlay : StreamParser) : M (list Range) :=
  let state := overlayStartState overlay view in
  do acc <-
    forM (visibleRanges view) (state, newDecorations)
      (scanVisibleRange fuel overlay view) ;
  ret (snd acc).

Definition compareRanges (a b : Range) : Z :=
  if negb (from a =? from b) then from a - from b else to a - to b.

(** [array.sort(compare)], a stable sort. *)
Fixpoint Array_insert {A} (compare : A -> A -> Z) (x : A) (l : list A)
  : list A :=
  match l with
  | [] => [x]
  | y :: rest => if compare x y <=? 0 then x :: y :: rest
                 else y :: Array_insert compare x rest
  end.

Fixpoint Array_sort {A} (compare : A -> A -> Z) (l : list A) : list A :=
  match l with
  | [] => []
  | x :: rest => Array_insert compare x (Array_sort compare rest)
  end.

Definition createOverlayDecorations (fuel : nat) (view : EditorView)
  : M DecorationSet :=
  do s <- get ;
  do newDecorations <- forM (_overlays s) [] (scanOverlay fuel view) ;
  (* Should be sorted by from position, then by length. *)
  let newDecorations := Array_sort compareRanges newDecorations in
  lift (RangeSetBuilder_finish newDecorations).

(** *** The view plugin that holds the overlay decorations *)

Record ViewUpdate := {
  viewportChanged : bool;
  docChanged : bool;
  transactions : list Transaction;
  view : EditorView
}.

(** [recomputes] counts the calls of [createOverlayDecorations] the plugin
    has made; it is not a field of the source. *)
Record OverlayPlugin := {
  decorations : DecorationSet;
  recomputes : nat
}.

Definition PluginM : Type :=
  OverlayPlugin -> Decorator -> Result unit * OverlayPlugin * Decorator.

Definition doUpdate (fuel : nat) (updated : bool) (update : ViewUpdate)
  : PluginM :=
  fun this s =>
    if updated then (Ok tt, this, s)
    else
      match createOverlayDecorations fuel (view update) s with
      | (Ok ds, s') =>
          (Ok tt, {| decorations := ds; recomputes := S (recomputes this) |}, s')
      | (Throw e, s') =>
          (Throw e, {| decorations := decorations this;
                       recomputes := S (recomputes this) |}, s')
      | (Diverges, s') =>
          (Diverges, {| decorations := decorations this;
                        recomputes := S (recomputes this) |}, s')
      end.

(** The inner loop over one transaction's effects, with its [break]. *)
Fixpoint refreshLoop (doUpdate : PluginM) (effs : list StateEffect) : PluginM :=
  fun this s =>
    match effs with
    | [] => (Ok tt, this, s)
    | effect :: rest =>
        if isRefresh effect then doUpdate this s
        else refreshLoop doUpdate rest this s
    end.

Fixpoint transactionLoop (doUpdate : PluginM) (trs : list Transaction)
  : PluginM :=
  fun this s =>
    match trs with
    | [] => (Ok tt, this, s)
    | transaction :: rest =>
        match refreshLoop doUpdate (effects transaction) this s with
        | (Ok _, this', s') => transactionLoop doUpdate rest this' s'
        | other => other
        end
    end.

Definition update (fuel : nat) (update : ViewUpdate) : PluginM :=
  let updated := false in
  let doUpdate := doUpdate fuel updated update in
  if viewportChanged update || docChanged update then doUpdate
  else transactionLoop doUpdate (transactions update).


(** ** Facade *)

Definition addOverlay (modeObject : StreamParser) : M unit :=
  exec modify (fun s =>
    {| editor := editor s; _effectDecorations := _effectDecorations s;
       _nextLineWidgetId := _nextLineWidgetId s;
       _decorationCache := _decorationCache s;
       _overlays := _overlays s ++ [modeObject];
       nextRef := nextRef s |}) ;
  dispatch [refreshOverlaysEffect].

Definition addRemoveLineClass (lineNumber : Z) (className : string)
  (add : bool) : M unit :=
  do s <- get ;
  (* + 1: Convert from zero-indexed to one-indexed *)
  do line <- lift (Text_line (doc (editor s)) (lineNumber + 1)) ;
  let effect := if add then addLineDecorationEffect
                else removeLineDecorationEffect in
  dispatch [effect {| cssClass := className; css_from := from line;
                      css_to := to line; css_id := None |}].

Definition addLineClass (lineNumber : Z) (_where className : string) : M unit :=
  addRemoveLineClass lineNumber className true.

Definition removeLineClass (lineNumber : Z) (_where className : string)
  : M unit :=
  addRemoveLineClass lineNumber className false.

Definition getLineClasses (lineNumber : Z) : M (list string) :=
  do s <- get ;
  do line <- lift (Text_line (doc (editor s)) (lineNumber + 1)) ;
  ret (fold_left
         (fun lineClasses r =>
            if (from r =? from line) && (to r =? to line)
            then match spec_class (spec (value r)) with
                 | Some className => lineClasses ++ [className]
                 | None => lineClasses
                 end
            else lineClasses)
         (RangeSet_between (from line) (to line) (_effectDecorations s))
         []).

Record MarkTextOptions := { mark_className : option string }.

(** The handle [markText] returns: its [clear] closes over [effectOptions]. *)
Record MarkHandle := { effectOptions : CssDecorationSpec }.

Definition markText (f t : Z) (options : option MarkTextOptions)
  : M MarkHandle :=
  match options with
  | None => throw (TypeError "Cannot read properties of undefined")
  | Some options =>
      do s <- get ;
      let effectOptions :=
        {| cssClass := match mark_className options with
                       | Some c => c
                       | None => EmptyString
                       end;
           css_id := Some (_nextLineWidgetId s);
           css_from := f; css_to := t |} in
      exec modify (set_nextLineWidgetId (_nextLineWidgetId s + 1)) ;
      exec dispatch [addMarkDecorationEffect effectOptions] ;
      ret {| effectOptions := effectOptions |}
  end.

Definition MarkHandle_clear (h : MarkHandle) : M unit :=
  dispatch [removeMarkDecorationEffect (effectOptions h)].

Record LineWidgetControl := {
  node : HTMLElement;
  control_className : option string
}.

Definition createLineWidgetControl (node : HTMLElement)
  (options : LineWidgetOptions) : LineWidgetControl :=
  {| node := node; control_className := className options |}.

Definition LineWidgetControl_clear (c : LineWidgetControl) : M unit :=
  dispatch [removeLineWidgetEffect (node c)].

(** [changed] asks the editor to measure again; the decorator is not
    touched. *)
Definition LineWidgetControl_changed (c : LineWidgetControl) : M unit :=
  ret tt.

Definition getLineWidgets (lineNumber : Z) : M (list LineWidgetControl) :=
  do s <- get ;
  do line <- lift (Text_line (doc (editor s)) (lineNumber + 1)) ;
  ret (fold_left
         (fun lineWidgets r =>
            if (from line <=? from r) && (from r <=? to line)
               && (from r =? to r)
            then match spec_widget (spec (value r)) with
                 | Some widget =>
                     lineWidgets
                     ++ [createLineWidgetControl (element widget)
                                                 (options widget)]
                 | None => lineWidgets
                 end
            else lineWidgets)
         (RangeSet_between (from line) (to line) (_effectDecorations s))
         []).

Definition addLineWidget (lineNumber : Z) (node : HTMLElement)
  (options : LineWidgetOptions) : M LineWidgetControl :=
  do s <- get ;
  do line <- lift (Text_line (doc (editor s)) (lineNumber + 1)) ;
  let lineWidgetOptions :=
    {| lw_from := from line; lw_to := to line; lw_element := node;
       lw_options := options |} in
  exec dispatch [addLineWidgetEffect lineWidgetOptions] ;
  ret (createLineWidgetControl node options).

(** * Notions used in the statements *)

(** What the claim "every decoration mutation effect is paired with the
    range remap rule" says of one effect. *)
Definition followsRangeRemapRule (e : StateEffect) : Prop :=
  forall change, exists f t,
    StateEffect_range e = Some (f, t)
    /\ StateEffect_range (StateEffect_map e change)
       = Some (Z.min (mapPos change f) (mapPos change t),
               Z.max (mapPos change f) (mapPos change t)).

Definition swapEnds : ChangeDesc :=
  {| mapPos := fun p => 10 - p; empty := false |}.

Definition sampleView : EditorView :=
  {| doc := Text_of ("abc" ++ String "010"%char "def");
     visibleRanges := [(0, 7)]; tabSize := 4; indentUnit := 2 |}.

Definition refreshTransaction : Transaction :=
  {| changes := ChangeDesc_empty; effects := [refreshOverlaysEffect];
     tr_doc := doc sampleView |}.

Definition emptyPlugin : OverlayPlugin :=
  {| decorations := Decoration_none; recomputes := 0 |}.

Definition run {A} (m : M A) (s : Decorator) : Decorator := snd (m s).

(** The class names [getLineClasses] collects for a line: the [spec.class]
    strings of the ranges that coincide with the line's range. *)
Definition exactRangeClasses (line : Line) (set : DecorationSet)
  : list string :=
  flat_map
    (fun r => if (from r =? from line) && (to r =? to line)
              then match spec_class (spec (value r)) with
                   | Some className => [className]
                   | None => []
                   end
              else [])
    set.

Definition effectTransaction (effs : list StateEffect) (s : Decorator)
  : Transaction :=
  {| changes := ChangeDesc_empty; effects := effs; tr_doc := doc (editor s) |}.

Definition keepsOtherIds (id : Z) (r : Range) : bool :=
  negb (option_Z_eqb (spec_id (spec (value r))) (Some id)).

(** What C5 asks of [markText(f, t, { className: c })] in state [s]: it
    returns a handle; every line that meets the marked range then has, in the
    canonical set's ranges touching the line, a mark decoration with class
    [c] over [f..t] that carries the new identity; and [clear()] on the
    handle succeeds and leaves no decoration with that identity in the
    set. *)
Definition markTextContract (s : Decorator) (f t : Z) (c : string) : Prop :=
  exists h s1,
    markText f t (Some {| mark_className := Some c |}) s = (Ok h, s1)
    /\ (forall n line,
          Text_line (doc (editor s1)) n = Ok line ->
          from line < t -> f <= to line ->
          exists r,
            In r (RangeSet_between (from line) (to line)
                    (_effectDecorations s1))
            /\ kind (value r) = MarkDecoration
            /\ renderedClass (value r) = Some c
            /\ spec_id (spec (value r)) = css_id (effectOptions h)
            /\ from r = f /\ to r = t)
    /\ exists s2,
         MarkHandle_clear h s1 = (Ok tt, s2)
         /\ (forall r, In r (_effectDecorations s2) ->
               spec_id (spec (value r)) <> css_id (effectOptions h))
         /\ (forall r, In r (_effectDecorations s1) ->
               spec_id (spec (value r)) <> css_id (effectOptions h) ->
               In r (_effectDecorations s2)).

Definition sampleHandle : MarkHandle :=
  {| effectOptions := {| css_from := 1; css_to := 5; cssClass := "x";
                         css_id := Some 0 |} |}.

Definition sampleControl : LineWidgetControl :=
  {| node := 3%nat; control_className := None |}.

Definition stateWithMarkAndWidget : Decorator :=
  run (addLineWidget 0 3%nat {| className := None; above := None |})
    (run (markText 1 5 (Some {| mark_className := Some "x"%string |}))
       (create sampleView)).




(** An overlay that returns no token and never moves the stream. *)
Definition stuckOverlay : StreamParser :=
  {| ParserState := unit; emptyState := tt; startState := None;
     token := fun reader st => (None, pos reader, st) |}.

Definition stateWithStuckOverlay : Decorator :=
  run (addOverlay stuckOverlay) (create sampleView).

Definition firstLine : Line :=
  {| line_from := 0; line_to := 3; number := 1; text := "abc" |}.

(** The order [compareRanges] sorts by: [from], then [to]. *)
Definition rangeOrder (a b : Range) : Prop :=
  from a < from b \/ (from a = from b /\ to a <= to b).

(** An overlay whose [token] returns [line-error] for the first character of
    a line and [null] otherwise, moving the stream forward on every call. *)
Definition lineErrorOverlay (o : StreamParser) : Prop :=
  forall reader st,
    match token o reader st with
    | (tok, p, _) =>
        pos reader < p
        /\ tok = if pos reader =? 0 then Some "line-error"%string else None
    end.

Definition lineErrorClass : string := "cm-line-error".

Definition lineStartRange (d : Decoration) (start : Z) : Range :=
  {| range_from := start; range_to := start; value := d |}.

(** The overlay of the scenario: [line-error] for the first character,
    nothing for the rest of the line. *)
Definition firstCharOverlay : StreamParser :=
  {| ParserState := unit; emptyState := tt; startState := None;
     token := fun reader st =>
       if pos reader =? 0 then (Some "line-error"%string, pos reader + 1, st)
       else (None, pos reader + 1, st) |}.

Definition threeLineView : EditorView :=
  {| doc := ["ab"; "c"; "def"]%string; visibleRanges := [(0, 8)];
     tabSize := 4; indentUnit := 2 |}.

(** What C7 asks of a recompute over a document of three lines: exactly
    three ranges, zero-width, holding line decorations, one at the start of
    each line, in ascending order. *)
Definition threeLineStartDecorations (fuel : nat) (vw : EditorView)
  (s : Decorator) : Prop :=
  exists r1 r2 r3 s' line1 line2 line3,
    createOverlayDecorations fuel vw s = (Ok [r1; r2; r3], s')
    /\ Text_line (doc vw) 1 = Ok line1
    /\ Text_line (doc vw) 2 = Ok line2
    /\ Text_line (doc vw) 3 = Ok line3
    /\ (from r1 = from line1 /\ to r1 = from line1
        /\ kind (value r1) = LineDecoration)
    /\ (from r2 = from line2 /\ to r2 = from line2
        /\ kind (value r2) = LineDecoration)
    /\ (from r3 = from line3 /\ to r3 = from line3
        /\ kind (value r3) = LineDecoration)
    /\ from r1 < from r2 < from r3.

(** The set a recompute returns is the list the overlays accumulated,
    sorted by [from], then [to]. *)
Definition returnsSortedAccumulation : Prop :=
  forall fuel vw s ds s',
    createOverlayDecorations fuel vw s = (Ok ds, s') ->
    exists acc,
      forM (_overlays s) [] (scanOverlay fuel vw) s = (Ok acc, s')
      /\ ds = Array_sort compareRanges acc
      /\ Sorted rangeOrder ds
      /\ Permutation acc ds.

(** A fully visible document of three lines, the second one empty. *)
Definition emptyMiddleView : EditorView :=
  {| doc := ["ab"; EmptyString; "def"]%string; visibleRanges := [(0, 7)];
     tabSize := 4; indentUnit := 2 |}.

(** The host applies a transaction that changes the document: the reducer
    maps the canonical set through the changes, and the editor shows the new
    document. *)
Definition documentChanged (newView : EditorView) (change : ChangeDesc)
  (s : Decorator) : Decorator :=
  let s' := run (updateEffectDecorations
                   [ {| changes := change; effects := [];
                        tr_doc := doc newView |} ]) s in
  {| editor := newView; _effectDecorations := _effectDecorations s';
     _nextLineWidgetId := _nextLineWidgetId s';
     _decorationCache := _decorationCache s'; _overlays := _overlays s';
     nextRef := nextRef s' |}.

(** The document [abc], line break, [def] cut down to [ab]. *)
Definition cutToTwoCharacters : ChangeDesc :=
  {| mapPos := fun p => Z.min p 2; empty := false |}.

Definition twoCharacterView : EditorView :=
  {| doc := Text_of "ab"; visibleRanges := [(0, 2)]; tabSize := 4;
     indentUnit := 2 |}.

(** ** Notions used in the further properties *)

(** The fields of the decorator that neither the cache nor the overlay
    engine writes. *)
Definition sameStores (s s' : Decorator) : Prop :=
  editor s' = editor s
  /\ _effectDecorations s' = _effectDecorations s
  /\ _nextLineWidgetId s' = _nextLineWidgetId s
  /\ _overlays s' = _overlays s.

(** A line number (zero-indexed, as the facade takes it) with no line. *)
Definition noSuchLine (s : Decorator) (lineNumber : Z) : Prop :=
  lineNumber + 1 < 1 \/ Text_lines (doc (editor s)) < lineNumber + 1.

(** A transaction that changes nothing in the document and carries no
    decoration mutation effect. *)
Definition carriesNoMutation (tr : Transaction) : Prop :=
  empty (changes tr) = true
  /\ Forall (fun e => isDecorationMutation e = false) (effects tr).

(** A position outside the document. *)
Definition noSuchPosition (doc : Text) (p : Z) : Prop :=
  p < 0 \/ Text_length doc < p.

(** Mapping through [first], then through [second]. *)
Definition ChangeDesc_compose (first second : ChangeDesc) : ChangeDesc :=
  {| mapPos := fun p => mapPos second (mapPos first p);
     empty := empty first && empty second |}.

Definition shiftBy (n : Z) : ChangeDesc :=
  {| mapPos := fun p => p + n; empty := false |}.

(** The decorator of [stateWithMarkAndWidget] after the document has become
    the two characters [ab]. *)
Definition shortView : EditorView :=
  {| doc := Text_of "ab"; visibleRanges := [(0, 2)]; tabSize := 4;
     indentUnit := 2 |}.

Definition stateAfterShrinking : Decorator :=
  {| editor := shortView;
     _effectDecorations := _effectDecorations stateWithMarkAndWidget;
     _nextLineWidgetId := _nextLineWidgetId stateWithMarkAndWidget;
     _decorationCache := _decorationCache stateWithMarkAndWidget;
     _overlays := [];
     nextRef := nextRef stateWithMarkAndWidget |}.


(** The controls [getLineWidgets] builds for a line: one for each
    zero-width range inside the line whose decoration wraps an element. *)
Definition lineWidgetControls (line : Line) (set : DecorationSet)
  : list LineWidgetControl :=
  flat_map
    (fun r => if (from line <=? from r) && (from r <=? to line)
                 && (from r =? to r)
              then match spec_widget (spec (value r)) with
                   | Some widget =>
                       [createLineWidgetControl (element widget)
                                                (options widget)]
                   | None => []
                   end
              else [])
    set.

(** Where [addLineWidget] anchors a widget on a line. *)
Definition widgetAnchor (line : Line) (o : LineWidgetOptions) : Z :=
  if truthy (above o) then from line else to line.

(** An overlay whose [token] moves the stream forward on every call. *)
Definition advances (o : StreamParser) : Prop :=
  forall reader st, pos reader < snd (fst (token o reader st)).

(** On [line], [o] returns no token and jumps from position [p] to [q] and
    from [q] back to [p], both before the end of the line. *)
Definition oscillates (o : StreamParser) (vw : EditorView) (line : Line)
  (p q : Z) : Prop :=
  p <> q /\ p < strlen (text line) /\ q < strlen (text line)
  /\ (forall st, exists st',
        token o (lineReader vw line p) st = (None, q, st'))
  /\ (forall st, exists st',
        token o (lineReader vw line q) st = (None, p, st')).

(** An overlay that skips one character forward and the next call one
    character back. *)
Definition pingPongOverlay : StreamParser :=
  {| ParserState := unit; emptyState := tt; startState := None;
     token := fun reader st =>
       if pos reader =? 0 then (None, 1, st) else (None, 0, st) |}.

Definition stateWithFirstCharOverlay : Decorator :=
  run (addOverlay firstCharOverlay) (create threeLineView).

(** What a class name of a token asks of the decoration made for it: the
    decoration is the one cached under the prefixed name, and its range is
    the start of the line for a [line-] name and the token's span
    otherwise. *)
Definition decoratesToken (s' : Decorator) (line : Line)
  (lastPos readerPos : Z) (name : string) (r : Range) : Prop :=
  _decorationCache s' !! ("cm-" ++ name)%string = Some (value r)
  /\ if startsWith "line-" name
     then from r = from line /\ to r = from line
     else from r = lastPos + from line /\ to r = readerPos + from line.

(** No decoration of the canonical set or of the cache has a [spec.class]:
    the decorator's own decorations carry their class under
    [spec.attributes]. *)
Definition withoutSpecClass (s : Decorator) : Prop :=
  (forall r, In r (_effectDecorations s) ->
             spec_class (spec (value r)) = None)
  /\ (forall k d, _decorationCache s !! k = Some d ->
                  spec_class (spec d) = None).

Definition rangesWithoutSpecClass (ds : DecorationSet) : Prop :=
  forall r, In r ds -> spec_class (spec (value r)) = None.


(** A view on the document that consists of one empty line. *)
Definition emptyDocumentView (tab indent : Z) : EditorView :=
  {| doc := [EmptyString]; visibleRanges := [(0, 0)]; tabSize := tab;
     indentUnit := indent |}.

(** * Properties *)

Ltac unfold_monad :=
  repeat progress (unfold bind, ret, get, modify, lift, throw in *; simpl in *).

(** ** Host library facts *)

Lemma lineSeq_from_le_to lines start n l :
  In l (lineSeq lines start n) -> line_from l <= line_to l.
Proof.
  revert start n.
  induction lines as [|x rest IH]; intros start n Hin; simpl in Hin.
  - contradiction.
  - destruct Hin as [<- | Hin].
    + simpl. unfold strlen. lia.
    + eapply IH; eassumption.
Qed.

Lemma Text_line_from_le_to doc n l :
  Text_line doc n = Ok l -> from l <= to l.
Proof.
  unfold Text_line.
  destruct ((n <? 1) || (Text_lines doc <? n)); [discriminate|].
  destruct (Text_allLines doc !! Z.to_nat (n - 1)) as [l'|] eqn:E;
    [|discriminate].
  intros [= <-].
  apply list_elem_of_lookup_2, list_elem_of_In in E.
  eapply lineSeq_from_le_to; exact E.
Qed.

Lemma lineSeq_find_total lines start n p :
  lines <> [] ->
  p <= start + (fold_right (fun l acc => strlen l + 1 + acc) 0 lines - 1) ->
  exists l, List.find (fun l => p <=? line_to l) (lineSeq lines start n)
            = Some l.
Proof.
  revert start n.
  induction lines as [|x rest IH]; intros start n Hne Hp; [congruence|].
  simpl. destruct (p <=? start + strlen x) eqn:E; [eauto|].
  apply Z.leb_gt in E.
  destruct rest as [|y rest'].
  - simpl in Hp. lia.
  - apply IH; [discriminate|]. simpl in *. lia.
Qed.

(** [lineAt] succeeds at every position of the document. *)
Lemma Text_lineAt_total doc p :
  0 <= p <= Text_length doc -> exists l, Text_lineAt doc p = Ok l.
Proof.
  intros [H0 H1]. unfold Text_lineAt.
  destruct ((p <? 0) || (Text_length doc <? p)) eqn:E.
  - apply orb_true_iff in E as [E|E]; [apply Z.ltb_lt in E|apply Z.ltb_lt in E];
      lia.
  - destruct (lineSeq_find_total doc 0 1 p) as [l Hl].
    + intros ->. unfold Text_length in H1. simpl in H1. lia.
    + unfold Text_length in H1. lia.
    + unfold Text_allLines. rewrite Hl. eauto.
Qed.

(** ** Effect registry *)

(** The remap rule orders the mapped ends. *)
Lemma mapRangeConfig_map_ordered (v : CssDecorationSpec) change :
  from (mapRangeConfig_map v change) <= to (mapRangeConfig_map v change).
Proof. unfold mapRangeConfig_map. simpl. lia. Qed.

(** C4, as stated, fails: the remove-line-widget effect is one of the six
    decoration mutation effects, but its value [{ element }] has no range
    and its effect type is defined without a [map]. *)
Lemma remove_widget_effect_has_no_remap :
  isDecorationMutation (removeLineWidgetEffect 0%nat) = true
  /\ ~ followsRangeRemapRule (removeLineWidgetEffect 0%nat).
Proof.
  split; [reflexivity|].
  intros H. destruct (H ChangeDesc_empty) as (f & t & Hr & _).
  discriminate Hr.
Qed.

(** C4, amended: the five decoration mutation effects that carry a range
    (add/remove line decoration, add/remove mark decoration, add line
    widget) share one remap rule: both ends are mapped independently and
    then ordered, so the mapped range has [from <= to].  The
    remove-line-widget effect carries only the element and is mapped to
    itself. *)
Theorem range_effects_share_remap_rule (e : StateEffect) (change : ChangeDesc) :
  isDecorationMutation e = true ->
  match e with
  | removeLineWidgetEffect el =>
      StateEffect_range e = None /\ StateEffect_map e change = e
  | _ =>
      exists f t,
        StateEffect_range e = Some (f, t)
        /\ StateEffect_range (StateEffect_map e change)
           = Some (Z.min (mapPos change f) (mapPos change t),
                   Z.max (mapPos change f) (mapPos change t))
        /\ Z.min (mapPos change f) (mapPos change t)
           <= Z.max (mapPos change f) (mapPos change t)
  end.
Proof.
  intros Hm.
  destruct e as [v|v|v|v| |v|el|]; simpl in Hm; try discriminate;
    try (split; reflexivity);
    exists (from v), (to v); repeat split; simpl; lia.
Qed.

Lemma range_effects_share_remap_rule_witness :
  exists f t,
    StateEffect_range
      (addMarkDecorationEffect
         {| css_from := 2; css_to := 5; cssClass := "x"; css_id := None |})
    = Some (f, t)
    /\ StateEffect_range
         (StateEffect_map
            (addMarkDecorationEffect
               {| css_from := 2; css_to := 5; cssClass := "x";
                  css_id := None |}) swapEnds)
       = Some (Z.min (mapPos swapEnds f) (mapPos swapEnds t),
               Z.max (mapPos swapEnds f) (mapPos swapEnds t))
    /\ Z.min (mapPos swapEnds f) (mapPos swapEnds t)
       <= Z.max (mapPos swapEnds f) (mapPos swapEnds t).
Proof.
  apply (range_effects_share_remap_rule
           (addMarkDecorationEffect
              {| css_from := 2; css_to := 5; cssClass := "x";
                 css_id := None |}) swapEnds).
  reflexivity.
Defined.

(** ** Remove-widget effect *)

Lemma RangeSet_filter_In keep set r :
  In r (RangeSet_filter keep set)
  <-> In r set /\ keep (from r) (to r) (value r) = true.
Proof. unfold RangeSet_filter. apply List.filter_In. Qed.

Lemma option_nat_eqb_eq a b : option_nat_eqb a b = true <-> a = b.
Proof.
  destruct a, b; simpl; try (split; congruence).
  rewrite Nat.eqb_eq. split; congruence.
Qed.

(** C10: a remove-line-widget effect never throws, touches nothing but the
    decoration set, and keeps exactly the ranges whose decoration does not
    wrap the effect's element, in their order.  In particular every line
    decoration and every mark decoration stays, and so does every widget
    decoration that wraps another element. *)
Theorem remove_widget_effect_frame (tr : Transaction) (set : DecorationSet)
  (el : HTMLElement) (s : Decorator) :
  exists kept,
    applyEffect tr set (removeLineWidgetEffect el) s = (Ok kept, s)
    /\ kept = List.filter
                (fun r => negb (option_nat_eqb (widgetElement (value r))
                                               (Some el))) set
    /\ (forall r, In r kept <-> In r set /\ widgetElement (value r) <> Some el)
    /\ (forall r n c id, In r set ->
          value r = Decoration_line n c id \/ value r = Decoration_mark n c id ->
          In r kept)
    /\ (forall r n w side block, In r set ->
          value r = Decoration_widget n w side block -> element w <> el ->
          In r kept).
Proof.
  eexists. split; [reflexivity|]. split; [reflexivity|].
  assert (Hiff : forall r,
    In r (List.filter
            (fun r => negb (option_nat_eqb (widgetElement (value r))
                                           (Some el))) set)
    <-> In r set /\ widgetElement (value r) <> Some el).
  { intros r. rewrite List.filter_In, negb_true_iff.
    split; intros [Hin H]; split; trivial.
    - intros Heq. apply option_nat_eqb_eq in Heq. congruence.
    - destruct (option_nat_eqb _ _) eqn:E; trivial.
      apply option_nat_eqb_eq in E. contradiction. }
  split; [exact Hiff|]. split.
  - intros r n c id Hin Hv. apply Hiff. split; trivial.
    destruct Hv as [-> | ->]; discriminate.
  - intros r n w side block Hin Hv Hne. apply Hiff. split; trivial.
    rewrite Hv. unfold widgetElement. simpl. congruence.
Qed.

(** ** Decoration cache *)

(** A request with an identity never reads the cache: it allocates a new
    decoration.  It also stores that decoration in the cache under the class
    name. *)
Lemma classNameToCssDecoration_with_id s c isLine id :
  exists d s',
    classNameToCssDecoration c isLine (Some id) s = (Ok d, s')
    /\ ref d = nextRef s
    /\ spec_id (spec d) = Some id
    /\ nextRef s' = S (nextRef s)
    /\ _decorationCache s' !! c = Some d.
Proof.
  unfold classNameToCssDecoration. unfold_monad.
  destruct (_decorationCache s !! c);
    (eexists; eexists; split; [reflexivity|]; simpl;
     repeat split; try (destruct isLine; reflexivity);
     apply lookup_insert_eq).
Qed.

(** A request without identity for a cached class returns the cached
    decoration and allocates nothing. *)
Lemma classNameToCssDecoration_cached s c isLine d :
  _decorationCache s !! c = Some d ->
  classNameToCssDecoration c isLine None s = (Ok d, s).
Proof.
  intros H. unfold classNameToCssDecoration. unfold_monad. rewrite H.
  reflexivity.
Qed.

(** C8: the code does not keep the claim.  On a fresh decorator, a request
    for class [a] without identity, then one with identity 7, then one
    without identity again: the third request does not return the decoration
    the first one returned, it returns the identity-bearing decoration of the
    second request, which the second request wrote into the cache. *)
Theorem identity_request_overwrites_cache :
  let s0 := create sampleView in
  let '(r1, s1) := classNameToCssDecoration "a" true None s0 in
  let '(r2, s2) := classNameToCssDecoration "a" false (Some 7) s1 in
  let '(r3, s3) := classNameToCssDecoration "a" true None s2 in
  r1 = Ok (Decoration_line 0 "a" None)
  /\ r2 = Ok (Decoration_mark 1 "a" (Some 7))
  /\ r3 = Ok (Decoration_mark 1 "a" (Some 7))
  /\ r3 <> r1
  /\ _decorationCache s2 !! "a" = Some (Decoration_mark 1 "a" (Some 7)).
Proof.
  vm_compute. repeat split; try reflexivity. discriminate.
Qed.

(** ** Overlay plugin update *)

(** C3: the code does not keep the claim.  [updated] is never set, so an
    update whose two transactions each carry a refresh signal (document and
    viewport unchanged) recomputes the overlay decorations twice. *)
Theorem update_recomputes_once_per_refreshing_transaction :
  let u := {| viewportChanged := false; docChanged := false;
              transactions := [refreshTransaction; refreshTransaction];
              view := sampleView |} in
  let '(r, this, _) := update 0 u emptyPlugin (create sampleView) in
  r = Ok tt /\ recomputes this = 2%nat.
Proof. vm_compute. split; reflexivity. Qed.

(** The other half of C3 holds: an update recomputes at least once when the
    viewport or the document changed or a transaction carries a refresh
    signal, and not at all otherwise. *)
Lemma refreshLoop_no_refresh f effs this s :
  existsb isRefresh effs = false -> refreshLoop f effs this s = (Ok tt, this, s).
Proof.
  induction effs as [|e rest IH]; simpl; [reflexivity|].
  destruct (isRefresh e); simpl; [discriminate|exact IH].
Qed.

Lemma update_without_trigger fuel u this s :
  viewportChanged u = false -> docChanged u = false ->
  existsb (fun tr => existsb isRefresh (effects tr)) (transactions u) = false ->
  update fuel u this s = (Ok tt, this, s).
Proof.
  intros Hv Hd Hr. unfold update. rewrite Hv, Hd. simpl.
  induction (transactions u) as [|tr rest IH]; simpl in *; [reflexivity|].
  apply orb_false_iff in Hr as [H1 H2].
  rewrite refreshLoop_no_refresh by exact H1. apply IH, H2.
Qed.

(** ** Removal without identity *)

(** What a remove effect without identity keeps: the decorations inside the
    enclosing line range that equal the target decoration. *)
Lemma removeCssDecoration_without_identity isRemoveLine tr v set s
  lineFrom lineTo target :
  css_id v = None ->
  Text_lineAt (tr_doc tr) (from v) = Ok lineFrom ->
  Text_lineAt (tr_doc tr) (to v) = Ok lineTo ->
  _decorationCache s !! cssClass v = Some target ->
  removeCssDecoration isRemoveLine tr v set s
  = (Ok (List.filter
           (fun r => (from lineFrom <=? from r) && (to r <=? to lineTo)
                     && Decoration_eq (value r) target) set), s).
Proof.
  intros Hid Hf Ht Hc. unfold removeCssDecoration. unfold_monad.
  rewrite Hf, Ht. rewrite (classNameToCssDecoration_cached _ _ _ _ Hc).
  rewrite Hid. reflexivity.
Qed.

(** C2: the code does not keep the claim.  In the document of two lines
    [abc] and [def], with class [hl] on line 0 and class [other] on line 1,
    [removeLineClass(0, '', 'hl')] leaves the [hl] decoration in the set and
    removes the [other] decoration: the filter keeps the matches and drops
    everything else. *)
Theorem remove_without_identity_keeps_the_matches :
  let s0 := create sampleView in
  let s1 := run (addLineClass 0 EmptyString "hl") s0 in
  let s2 := run (addLineClass 1 EmptyString "other") s1 in
  let '(r, s3) := removeLineClass 0 EmptyString "hl" s2 in
  _effectDecorations s2
  = [ {| range_from := 0; range_to := 0;
         value := Decoration_line 0 "hl" None |};
      {| range_from := 4; range_to := 4;
         value := Decoration_line 1 "other" None |} ]
  /\ r = Ok tt
  /\ _effectDecorations s3
     = [ {| range_from := 0; range_to := 0;
            value := Decoration_line 0 "hl" None |} ].
Proof. vm_compute. repeat split; reflexivity. Qed.

(** ** Line classes *)

Lemma getLineClasses_fold line (set : list Range) acc :
  from line <= to line ->
  fold_left
    (fun lineClasses r =>
       if (from r =? from line) && (to r =? to line)
       then match spec_class (spec (value r)) with
            | Some className => lineClasses ++ [className]
            | None => lineClasses
            end
       else lineClasses)
    (RangeSet_between (from line) (to line) set) acc
  = acc ++ exactRangeClasses line set.
Proof.
  intros Hle. revert acc. unfold RangeSet_between, exactRangeClasses.
  induction set as [|r rest IH]; intros acc; cbn [List.filter flat_map fold_left].
  - symmetry. apply app_nil_r.
  - destruct ((from r =? from line) && (to r =? to line)) eqn:E.
    + pose proof E as E'.
      apply andb_true_iff in E' as [E1 E2].
      apply Z.eqb_eq in E1, E2.
      assert (Hb : (from r <=? to line) && (from line <=? to r) = true).
      { apply andb_true_iff; split; apply Z.leb_le; lia. }
      rewrite Hb. cbn [fold_left]. rewrite E.
      destruct (spec_class (spec (value r))).
      * rewrite IH. rewrite <- app_assoc. reflexivity.
      * apply IH.
    + destruct ((from r <=? to line) && (from line <=? to r));
        cbn [fold_left app].
      * rewrite E. apply IH.
      * apply IH.
Qed.

(** C1: the code does not keep the claim.  In the document of the two
    lines [abc] and [def], [addLineClass(0, '', 'hl')] puts a line
    decoration for the class into the canonical set, but a following
    [getLineClasses(0)] returns the empty list: the decoration is stored over
    0..0 with the class under [spec.attributes], while [getLineClasses]
    compares with the whole range 0..3 of the line and reads [spec.class]. *)
Theorem getLineClasses_misses_added_class :
  let s1 := run (addLineClass 0 EmptyString "hl") (create sampleView) in
  Text_line (doc (editor s1)) 1
  = Ok {| line_from := 0; line_to := 3; number := 1; text := "abc" |}
  /\ _effectDecorations s1
     = [ {| range_from := 0; range_to := 0;
            value := Decoration_line 0 "hl" None |} ]
  /\ spec_attributes_class (spec (Decoration_line 0 "hl" None))
     = Some "hl"%string
  /\ spec_class (spec (Decoration_line 0 "hl" None)) = None
  /\ getLineClasses 0 s1 = (Ok [], s1).
Proof. vm_compute. repeat split; reflexivity. Qed.

(** ** Dispatching one effect *)

Lemma dispatch_single e s :
  dispatch [e] s
  = match applyEffect (effectTransaction [e] s) (_effectDecorations s) e s with
    | (Ok ds, s') => (Ok tt, set_effectDecorations ds s')
    | (Throw err, s') => (Throw err, s')
    | (Diverges, s') => (Diverges, s')
    end.
Proof.
  unfold dispatch, updateEffectDecorations, effectTransaction. unfold_monad.
  unfold RangeSet_map. simpl.
  destruct (applyEffect _ _ e s) as [[ds|err|] s']; reflexivity.
Qed.

Lemma RangeSet_add_In r set x :
  In x (RangeSet_add r set) <-> x = r \/ In x set.
Proof.
  induction set as [|y rest IH]; simpl.
  - intuition.
  - destruct (rangeBefore y r); simpl; rewrite ?IH; intuition.
Qed.

Lemma option_Z_eqb_eq a b : option_Z_eqb a b = true <-> a = b.
Proof.
  destruct a, b; simpl; try (split; congruence).
  rewrite Z.eqb_eq. split; congruence.
Qed.

Lemma keepsOtherIds_true id r :
  keepsOtherIds id r = true <-> spec_id (spec (value r)) <> Some id.
Proof.
  unfold keepsOtherIds. rewrite negb_true_iff.
  destruct (option_Z_eqb _ _) eqn:E.
  - apply option_Z_eqb_eq in E. split; [discriminate|contradiction].
  - split; trivial. intros _ H. apply option_Z_eqb_eq in H. congruence.
Qed.

(** A remove effect that carries an identity keeps exactly the decorations
    with another identity (or none), provided the ends of its range are
    positions of the document. *)
Lemma removeCssDecoration_with_id isRemoveLine tr v set s id :
  css_id v = Some id ->
  0 <= from v <= Text_length (tr_doc tr) ->
  0 <= to v <= Text_length (tr_doc tr) ->
  exists s',
    removeCssDecoration isRemoveLine tr v set s
    = (Ok (List.filter (keepsOtherIds id) set), s')
    /\ editor s' = editor s
    /\ _effectDecorations s' = _effectDecorations s.
Proof.
  intros Hid Hf Ht.
  destruct (Text_lineAt_total _ _ Hf) as [lf Hlf].
  destruct (Text_lineAt_total _ _ Ht) as [lt Hlt].
  unfold removeCssDecoration, classNameToCssDecoration. unfold_monad.
  rewrite Hlf, Hlt, Hid. simpl.
  destruct (_decorationCache s !! cssClass v);
    eexists; (split; [reflexivity|split; reflexivity]).
Qed.

Lemma MarkHandle_clear_with_id h s id :
  css_id (effectOptions h) = Some id ->
  0 <= from (effectOptions h) <= Text_length (doc (editor s)) ->
  0 <= to (effectOptions h) <= Text_length (doc (editor s)) ->
  exists s',
    MarkHandle_clear h s = (Ok tt, s')
    /\ _effectDecorations s'
       = List.filter (keepsOtherIds id) (_effectDecorations s)
    /\ editor s' = editor s.
Proof.
  intros Hid Hf Ht. unfold MarkHandle_clear. rewrite dispatch_single.
  cbn [applyEffect].
  destruct (removeCssDecoration_with_id false
              (effectTransaction [removeMarkDecorationEffect (effectOptions h)] s)
              (effectOptions h) (_effectDecorations s) s id Hid Hf Ht)
    as (s' & -> & He & _).
  eexists. split; [reflexivity|]. split; [reflexivity|exact He].
Qed.

Lemma LineWidgetControl_clear_spec c s :
  LineWidgetControl_clear c s
  = (Ok tt,
     set_effectDecorations
       (List.filter
          (fun r => negb (option_nat_eqb (widgetElement (value r))
                                         (Some (node c))))
          (_effectDecorations s)) s).
Proof. unfold LineWidgetControl_clear. rewrite dispatch_single. reflexivity. Qed.

Lemma filter_idempotent {A} (p : A -> bool) (l : list A) :
  List.filter p (List.filter p l) = List.filter p l.
Proof.
  induction l as [|x rest IH]; simpl; [reflexivity|].
  destruct (p x) eqn:E; simpl; rewrite ?E, IH; reflexivity.
Qed.

Lemma filter_all {A} (p : A -> bool) (l : list A) :
  (forall x, In x l -> p x = true) -> List.filter p l = l.
Proof.
  induction l as [|x rest IH]; simpl; intros H; [reflexivity|].
  rewrite (H x) by auto. f_equal. apply IH. auto.
Qed.

(** ** Marks *)

(** C5, as stated, fails for an empty range: [markText(1, 1, ...)] throws,
    because a mark decoration may not be empty, and returns no handle. *)
Lemma markText_empty_range_throws :
  0 <= 1 <= 1 /\ 1 <= Text_length (doc sampleView)
  /\ fst (markText 1 1 (Some {| mark_className := Some "x"%string |})
            (create sampleView))
     = Throw (RangeError "Mark decorations may not be empty")
  /\ ~ markTextContract (create sampleView) 1 1 "x".
Proof.
  split; [lia|]. split; [vm_compute; discriminate|]. split; [reflexivity|].
  intros (h & s1 & H & _).
  apply (f_equal fst) in H. vm_compute in H. discriminate H.
Qed.

(** C5, amended: for all positions [0 <= f < t <= length] of the document,
    [markText(f, t, { className: c })] returns a handle, the ranges of the
    canonical set that touch any line meeting [f..t] include a mark
    decoration with class [c] over [f..t], and after [clear()] on the handle
    no decoration with the handle's identity is left in the set, while every
    other decoration is kept. *)
Theorem markText_then_clear (s : Decorator) (f t : Z) (c : string) :
  0 <= f -> f < t -> t <= Text_length (doc (editor s)) ->
  markTextContract s f t c.
Proof.
  intros H0 Hlt Hlen. unfold markTextContract, markText. unfold_monad.
  rewrite dispatch_single. cbn [applyEffect].
  unfold addCssDecoration, classNameToCssDecoration. unfold_monad.
  assert (Hrange : Decoration_range
                     (Decoration_mark (nextRef s) c (Some (_nextLineWidgetId s)))
                     f t
                   = Ok {| range_from := f; range_to := t;
                           value := Decoration_mark (nextRef s) c
                                      (Some (_nextLineWidgetId s)) |}).
  { unfold Decoration_range. simpl.
    destruct (t <=? f) eqn:E; [apply Z.leb_le in E; lia|reflexivity]. }
  destruct (_decorationCache s !! c); simpl; rewrite Hrange; simpl;
    (eexists; eexists; split; [reflexivity|]; simpl; split;
     [ intros n line Hline Hl1 Hl2;
       eexists; split;
       [ unfold RangeSet_between; apply List.filter_In; split;
         [ apply RangeSet_add_In; left; reflexivity
         | simpl; apply andb_true_iff; split; apply Z.leb_le; lia ]
       | simpl; repeat split ]
     | ]).
  all: match goal with
       | |- exists s2, MarkHandle_clear ?h ?s1 = _ /\ _ =>
           destruct (MarkHandle_clear_with_id h s1 (_nextLineWidgetId s))
             as (s2 & Hc & Hset & _);
           [ reflexivity | simpl; lia | simpl; lia | ];
           exists s2; split; [exact Hc|]; rewrite Hset; split;
           [ intros r Hin; apply List.filter_In in Hin as [_ Hk];
             apply keepsOtherIds_true in Hk; exact Hk
           | intros r Hin Hne; apply List.filter_In; split;
             [exact Hin|apply keepsOtherIds_true; exact Hne] ]
       end.
Qed.

Lemma markText_then_clear_witness :
  markTextContract (create sampleView) 1 5 "x".
Proof.
  apply (markText_then_clear (create sampleView) 1 5 "x").
  - lia.
  - lia.
  - vm_compute. discriminate.
Defined.

(** ** Clearing a handle twice *)

(** The handle of [markText] closes over the identity allocated for it. *)
Lemma markText_handle f t options s h s1 :
  markText f t options s = (Ok h, s1) ->
  css_id (effectOptions h) = Some (_nextLineWidgetId s)
  /\ from (effectOptions h) = f /\ to (effectOptions h) = t
  /\ editor s1 = editor s.
Proof.
  unfold markText. destruct options as [o|]; [|discriminate].
  unfold_monad. rewrite dispatch_single. cbn [applyEffect].
  unfold addCssDecoration, classNameToCssDecoration. unfold_monad.
  destruct (_decorationCache s !! _); simpl;
    destruct (Decoration_range _ f t); simpl; intros [= <- <-];
    repeat split.
Qed.

(** The control of [addLineWidget] closes over the node it was given. *)
Lemma addLineWidget_control n el options s ctl s1 :
  addLineWidget n el options s = (Ok ctl, s1) -> node ctl = el.
Proof.
  unfold addLineWidget. unfold_monad.
  destruct (Text_line _ _); try discriminate.
  intros [= <- <-]. reflexivity.
Qed.

(** C9: the code does not keep the claim.  A mark is made over 1..5 in the
    document of the two lines [abc] and [def] and cleared through its handle;
    the document is then cut down to [ab]; a second [clear()] on the same
    handle throws the document's RangeError, because the remove branch looks
    up the lines of the handle's original ends 1 and 5 before it filters by
    identity. *)
Theorem second_clear_throws_after_document_shrinks :
  let s0 := create sampleView in
  let '(r1, s1) :=
    markText 1 5 (Some {| mark_className := Some "x"%string |}) s0 in
  let '(r2, s2) := MarkHandle_clear sampleHandle s1 in
  let s3 := documentChanged twoCharacterView cutToTwoCharacters s2 in
  r1 = Ok sampleHandle
  /\ r2 = Ok tt
  /\ _effectDecorations s2 = []
  /\ _effectDecorations s3 = []
  /\ Text_length (doc (editor s3)) = 2
  /\ MarkHandle_clear sampleHandle s3
     = (Throw (RangeError "Invalid position"), s3).
Proof. vm_compute. repeat split; reflexivity. Qed.

(** X24: where the ends of a mark handle are positions of the document,
    [clear()] on the handle succeeds, and a second [clear()] succeeds too and
    leaves the canonical set as the first one left it; the same holds for
    the [clear()] of a line widget control, which never throws.  More
    generally, in any state whose set holds no decoration with the handle's
    identity (no widget wrapping the control's node), [clear()] leaves the
    set unchanged. *)
Theorem clear_twice_is_noop (s : Decorator) (h : MarkHandle) (id : Z)
  (ctl : LineWidgetControl) :
  css_id (effectOptions h) = Some id ->
  0 <= from (effectOptions h) <= Text_length (doc (editor s)) ->
  0 <= to (effectOptions h) <= Text_length (doc (editor s)) ->
  (exists s1 s2,
     MarkHandle_clear h s = (Ok tt, s1)
     /\ MarkHandle_clear h s1 = (Ok tt, s2)
     /\ _effectDecorations s2 = _effectDecorations s1)
  /\ (exists s1 s2,
        LineWidgetControl_clear ctl s = (Ok tt, s1)
        /\ LineWidgetControl_clear ctl s1 = (Ok tt, s2)
        /\ _effectDecorations s2 = _effectDecorations s1)
  /\ ((forall r, In r (_effectDecorations s) ->
         spec_id (spec (value r)) <> Some id) ->
      exists s1, MarkHandle_clear h s = (Ok tt, s1)
                 /\ _effectDecorations s1 = _effectDecorations s)
  /\ ((forall r, In r (_effectDecorations s) ->
         widgetElement (value r) <> Some (node ctl)) ->
      exists s1, LineWidgetControl_clear ctl s = (Ok tt, s1)
                 /\ _effectDecorations s1 = _effectDecorations s).
Proof.
  intros Hid Hf Ht.
  destruct (MarkHandle_clear_with_id h s id Hid Hf Ht) as (s1 & Hc1 & Hs1 & He1).
  destruct (MarkHandle_clear_with_id h s1 id Hid) as (s2 & Hc2 & Hs2 & _);
    [rewrite He1; exact Hf|rewrite He1; exact Ht|].
  split; [|split; [|split]].
  - exists s1, s2. split; [exact Hc1|]. split; [exact Hc2|].
    rewrite Hs2, Hs1. apply filter_idempotent.
  - eexists. eexists. split; [apply LineWidgetControl_clear_spec|].
    split; [apply LineWidgetControl_clear_spec|].
    simpl. apply filter_idempotent.
  - intros Hnone. exists s1. split; [exact Hc1|].
    rewrite Hs1. apply filter_all. intros r Hin.
    apply keepsOtherIds_true. apply Hnone, Hin.
  - intros Hnone. eexists. split; [apply LineWidgetControl_clear_spec|].
    simpl. apply filter_all. intros r Hin.
    apply negb_true_iff. destruct (option_nat_eqb _ _) eqn:E; trivial.
    apply option_nat_eqb_eq in E. apply Hnone in Hin. contradiction.
Qed.

Lemma clear_twice_is_noop_witness :
  exists s1 s2,
    MarkHandle_clear sampleHandle stateWithMarkAndWidget = (Ok tt, s1)
    /\ MarkHandle_clear sampleHandle s1 = (Ok tt, s2)
    /\ _effectDecorations s2 = _effectDecorations s1.
Proof.
  apply (clear_twice_is_noop stateWithMarkAndWidget sampleHandle 0
           sampleControl).
  - reflexivity.
  - vm_compute. split; discriminate.
  - vm_compute. split; discriminate.
Defined.

(** ** A token call that does not advance *)


Lemma forM_never_diverges {A B} (body : B -> A -> M B) l :
  (forall acc x s, fst (body acc x s) <> Diverges) ->
  forall acc s, fst (forM l acc body s) <> Diverges.
Proof.
  intros Hbody. induction l as [|x rest IH]; intros acc s; cbn [forM].
  - discriminate.
  - unfold bind. specialize (Hbody acc x s).
    destruct (body acc x s) as [[acc1|e|] s1]; simpl in *;
      [apply IH|discriminate|congruence].
Qed.

Lemma Decoration_range_never_diverges d f t :
  Decoration_range d f t <> Diverges.
Proof.
  unfold Decoration_range.
  destruct (kind d); [destruct (negb (t =? f))|destruct (t <=? f)|];
    discriminate.
Qed.

Lemma makeDecoration_never_diverges tokenName start stop s :
  fst (makeDecoration tokenName start stop s) <> Diverges.
Proof.
  unfold makeDecoration, classNameToCssDecoration. unfold_monad.
  destruct (_decorationCache s !! _) as [d|]; simpl;
    match goal with
    | |- context [Decoration_range ?d ?f ?t] =>
        pose proof (Decoration_range_never_diverges d f t);
        destruct (Decoration_range d f t); simpl;
        [discriminate|discriminate|congruence]
    end.
Qed.

Lemma pushTokenDecorations_never_diverges line lastPos readerPos acc tok s :
  fst (pushTokenDecorations line lastPos readerPos acc tok s) <> Diverges.
Proof.
  unfold pushTokenDecorations. apply forM_never_diverges.
  intros acc0 className s0.
  destruct (startsWith "line-" className); unfold bind;
    match goal with
    | |- context [makeDecoration ?a ?b ?c ?d] =>
        pose proof (makeDecoration_never_diverges a b c d) as Hm;
        destruct (makeDecoration a b c d) as [[r|e|] s1]; simpl in *;
        [discriminate|discriminate|congruence]
    end.
Qed.





(** ** Sorting the overlay decorations *)

Lemma compareRanges_le a b : compareRanges a b <= 0 <-> rangeOrder a b.
Proof.
  unfold compareRanges, rangeOrder. simpl.
  destruct (range_from a =? range_from b) eqn:E; simpl.
  - apply Z.eqb_eq in E. lia.
  - apply Z.eqb_neq in E. lia.
Qed.

Lemma compareRanges_total a b : ~ compareRanges a b <= 0 -> rangeOrder b a.
Proof.
  unfold compareRanges, rangeOrder. simpl.
  destruct (range_from a =? range_from b) eqn:E; simpl.
  - apply Z.eqb_eq in E. lia.
  - apply Z.eqb_neq in E. lia.
Qed.

Lemma Array_insert_HdRel a x l :
  HdRel rangeOrder a l -> rangeOrder a x ->
  HdRel rangeOrder a (Array_insert compareRanges x l).
Proof.
  intros Hhd Hax. destruct l as [|y rest]; simpl.
  - constructor. exact Hax.
  - destruct (compareRanges x y <=? 0); constructor.
    + exact Hax.
    + inversion Hhd. assumption.
Qed.

Lemma Array_insert_Sorted x l :
  Sorted rangeOrder l -> Sorted rangeOrder (Array_insert compareRanges x l).
Proof.
  induction 1 as [|y rest Hs IH Hhd]; simpl.
  - repeat constructor.
  - destruct (compareRanges x y <=? 0) eqn:E.
    + apply Z.leb_le, compareRanges_le in E.
      constructor; [constructor; assumption|constructor; exact E].
    + apply Z.leb_gt in E.
      constructor; [exact IH|].
      apply Array_insert_HdRel; [exact Hhd|].
      apply compareRanges_total. lia.
Qed.

Lemma Array_insert_Permutation {A} (compare : A -> A -> Z) x l :
  Permutation (x :: l) (Array_insert compare x l).
Proof.
  induction l as [|y rest IH]; simpl; [reflexivity|].
  destruct (compare x y <=? 0); [reflexivity|].
  rewrite perm_swap. constructor. exact IH.
Qed.

(** The sort returns its input, reordered by [from], then [to]. *)
Lemma Array_sort_compareRanges (l : list Range) :
  Sorted rangeOrder (Array_sort compareRanges l)
  /\ Permutation l (Array_sort compareRanges l).
Proof.
  induction l as [|x rest [IHs IHp]]; simpl.
  - split; constructor.
  - split.
    + apply Array_insert_Sorted, IHs.
    + rewrite <- Array_insert_Permutation. constructor. exact IHp.
Qed.

Lemma Array_sort_of_sorted (l : list Range) :
  Sorted rangeOrder l -> Array_sort compareRanges l = l.
Proof.
  induction 1 as [|x rest Hs IH Hhd]; simpl; [reflexivity|].
  rewrite IH. destruct Hhd as [|y rest' Hxy]; simpl; [reflexivity|].
  apply compareRanges_le, Z.leb_le in Hxy. rewrite Hxy. reflexivity.
Qed.

(** The builder accepts ranges whose [from] grows strictly. *)
Lemma RangeSetBuilder_addAll_increasing (l : list Range) :
  forall lastFrom last,
    StronglySorted (fun a b : Range => from a < from b) l ->
    Forall (fun r : Range => lastFrom < from r) l ->
    RangeSetBuilder_addAll lastFrom last l = Ok l.
Proof.
  induction l as [|r rest IH]; intros lastFrom last Hs Hall; simpl.
  - reflexivity.
  - inversion Hs as [|? ? Hs' Hrest]; subst.
    inversion Hall as [|? ? Hr _]; subst.
    destruct (range_from r - lastFrom =? 0) eqn:E.
    + apply Z.eqb_eq in E. simpl in Hr. lia.
    + simpl. destruct (range_from r - lastFrom <? 0) eqn:E2.
      * apply Z.ltb_lt in E2. simpl in Hr. lia.
      * rewrite IH; [reflexivity|exact Hs'|exact Hrest].
Qed.

(** ** The line-error overlay *)

Lemma lineReader_eol vw line p :
  StringStream_eol (lineReader vw line p) = (strlen (text line) <=? p).
Proof. reflexivity. Qed.

(** Past the first character the overlay adds nothing and the scan ends. *)
Lemma scanLine_lineError_rest o vw line :
  lineErrorOverlay o ->
  forall fuel p st acc s,
    0 < p -> strlen (text line) - p <= Z.of_nat fuel ->
    exists st', scanLine fuel o vw line p st acc s = (Ok (st', acc), s).
Proof.
  intros Ho. induction fuel as [|fuel IH]; intros p st acc s Hp Hfuel.
  - exists st. cbn [scanLine]. rewrite lineReader_eol.
    destruct (strlen (text line) <=? p) eqn:E; [reflexivity|].
    apply Z.leb_gt in E. lia.
  - cbn [scanLine]. rewrite lineReader_eol.
    destruct (strlen (text line) <=? p) eqn:E; [exists st; reflexivity|].
    apply Z.leb_gt in E.
    specialize (Ho (lineReader vw line p) st).
    destruct (token o (lineReader vw line p) st) as [[tok p1] st1].
    simpl in Ho. destruct Ho as [Hadv Htok].
    destruct (p =? 0) eqn:E0; [apply Z.eqb_eq in E0; lia|].
    subst tok. unfold pushTokenDecorations. simpl. unfold bind, ret.
    destruct (p1 =? p) eqn:E1; [apply Z.eqb_eq in E1; lia|].
    apply IH; lia.
Qed.

Lemma pushTokenDecorations_lineError line lastPos readerPos acc s d s1 :
  classNameToCssDecoration lineErrorClass true None s = (Ok d, s1) ->
  kind d = LineDecoration ->
  pushTokenDecorations line lastPos readerPos acc (Some "line-error"%string) s
  = (Ok (acc ++ [lineStartRange d (from line)]), s1).
Proof.
  intros Hd Hk. unfold pushTokenDecorations.
  change (tokenClassNames (Some "line-error"%string))
    with ["line-error"%string].
  cbn [forM]. change (startsWith "line-" "line-error") with true.
  cbv iota. unfold bind at 1. unfold bind at 1. unfold makeDecoration.
  change (startsWith "line-" "line-error") with true.
  change ("cm-" ++ "line-error")%string with lineErrorClass.
  unfold bind at 1. rewrite Hd. unfold lift, Decoration_range. rewrite Hk.
  rewrite Z.eqb_refl. reflexivity.
Qed.

(** On a non-empty line the overlay adds one zero-width decoration at the
    line's start. *)
Lemma scanLine_lineError o vw line fuel st acc s d s1 :
  lineErrorOverlay o ->
  0 < strlen (text line) -> strlen (text line) <= Z.of_nat fuel ->
  classNameToCssDecoration lineErrorClass true None s = (Ok d, s1) ->
  kind d = LineDecoration ->
  exists st',
    scanLine fuel o vw line 0 st acc s
    = (Ok (st', acc ++ [lineStartRange d (from line)]), s1).
Proof.
  intros Ho Hlen Hfuel Hd Hk.
  destruct fuel as [|fuel]; [simpl in Hfuel; lia|].
  cbn [scanLine]. rewrite lineReader_eol.
  destruct (strlen (text line) <=? 0) eqn:E; [apply Z.leb_le in E; lia|].
  pose proof (Ho (lineReader vw line 0) st) as Hcall.
  destruct (token o (lineReader vw line 0) st) as [[tok p1] st1].
  simpl in Hcall. destruct Hcall as [Hadv ->].
  unfold bind.
  rewrite (pushTokenDecorations_lineError _ _ _ _ _ _ _ Hd Hk).
  destruct (p1 =? 0) eqn:E1; [apply Z.eqb_eq in E1; lia|].
  apply scanLine_lineError_rest; [exact Ho|lia|lia].
Qed.

(** The first request for the line-error class caches a line decoration;
    every later request returns it. *)
Lemma lineError_decoration s :
  (forall d, _decorationCache s !! lineErrorClass = Some d ->
             kind d = LineDecoration) ->
  exists d s1,
    classNameToCssDecoration lineErrorClass true None s = (Ok d, s1)
    /\ kind d = LineDecoration
    /\ classNameToCssDecoration lineErrorClass true None s1 = (Ok d, s1)
    /\ (_decorationCache s !! lineErrorClass = None ->
        d = Decoration_line (nextRef s) lineErrorClass None).
Proof.
  intros Hc. unfold classNameToCssDecoration at 1. unfold_monad.
  destruct (_decorationCache s !! lineErrorClass) as [d|] eqn:E.
  - exists d, s. split; [reflexivity|]. split; [apply Hc; reflexivity|].
    split; [apply classNameToCssDecoration_cached, E|discriminate].
  - eexists. eexists. split; [reflexivity|]. split; [reflexivity|].
    split; [|reflexivity].
    apply classNameToCssDecoration_cached. simpl. apply lookup_insert_eq.
Qed.

Lemma scanLineNumber_lineError o vw fuel st acc s d s1 i line :
  lineErrorOverlay o ->
  Text_line (doc vw) i = Ok line ->
  0 < strlen (text line) -> strlen (text line) <= Z.of_nat fuel ->
  classNameToCssDecoration lineErrorClass true None s = (Ok d, s1) ->
  kind d = LineDecoration ->
  exists st',
    scanLineNumber fuel o vw (st, acc) i s
    = (Ok (st', acc ++ [lineStartRange d (from line)]), s1).
Proof.
  intros Ho Hline Hpos Hfuel Hd Hk.
  unfold scanLineNumber, bind, lift. rewrite Hline.
  apply scanLine_lineError; assumption.
Qed.

Lemma strlen_pos l : l <> EmptyString -> 0 < strlen l.
Proof. destruct l; [congruence|]. intros _. unfold strlen. simpl. lia. Qed.

Section ThreeLines.
Variables l1 l2 l3 : string.
Hypothesis H1 : 0 < strlen l1.
Hypothesis H2 : 0 < strlen l2.
Hypothesis H3 : 0 < strlen l3.

Lemma threeLines_length :
  Text_length [l1; l2; l3] = strlen l1 + strlen l2 + strlen l3 + 2.
Proof. unfold Text_length. simpl. lia. Qed.

Lemma threeLines_line1 :
  Text_line [l1; l2; l3] 1
  = Ok {| line_from := 0; line_to := 0 + strlen l1; number := 1;
          text := l1 |}.
Proof. reflexivity. Qed.

Lemma threeLines_line2 :
  Text_line [l1; l2; l3] 2
  = Ok {| line_from := 0 + strlen l1 + 1;
          line_to := 0 + strlen l1 + 1 + strlen l2; number := 1 + 1;
          text := l2 |}.
Proof. reflexivity. Qed.

Lemma threeLines_line3 :
  Text_line [l1; l2; l3] 3
  = Ok {| line_from := 0 + strlen l1 + 1 + strlen l2 + 1;
          line_to := 0 + strlen l1 + 1 + strlen l2 + 1 + strlen l3;
          number := 1 + 1 + 1; text := l3 |}.
Proof. reflexivity. Qed.

Lemma threeLines_lineAt_start :
  exists l, Text_lineAt [l1; l2; l3] 0 = Ok l /\ number l = 1.
Proof.
  unfold Text_lineAt. rewrite threeLines_length.
  destruct ((0 <? 0) || (strlen l1 + strlen l2 + strlen l3 + 2 <? 0)) eqn:E.
  - apply orb_true_iff in E as [E|E]; apply Z.ltb_lt in E; lia.
  - simpl.
    destruct (0 <=? 0 + strlen l1) eqn:E1; [eauto|].
    apply Z.leb_gt in E1. lia.
Qed.

Lemma threeLines_lineAt_end :
  exists l, Text_lineAt [l1; l2; l3] (Text_length [l1; l2; l3]) = Ok l
            /\ number l = 3.
Proof.
  unfold Text_lineAt. rewrite threeLines_length.
  set (n := strlen l1 + strlen l2 + strlen l3 + 2).
  destruct ((n <? 0) || (n <? n)) eqn:E.
  - apply orb_true_iff in E as [E|E]; apply Z.ltb_lt in E; lia.
  - simpl.
    destruct (n <=? 0 + strlen l1) eqn:E1;
      [apply Z.leb_le in E1; lia|].
    destruct (n <=? 0 + strlen l1 + 1 + strlen l2) eqn:E2;
      [apply Z.leb_le in E2; lia|].
    destruct (n <=? 0 + strlen l1 + 1 + strlen l2 + 1 + strlen l3) eqn:E3;
      [eauto|].
    apply Z.leb_gt in E3. lia.
Qed.
End ThreeLines.

Lemma RangeSetBuilder_addAll_Ok l :
  forall lastFrom last ds,
    RangeSetBuilder_addAll lastFrom last l = Ok ds -> ds = l.
Proof.
  induction l as [|r rest IH]; intros lastFrom last ds; simpl.
  - intros [= <-]. reflexivity.
  - destruct (_ <? 0); [discriminate|].
    destruct (RangeSetBuilder_addAll _ _ rest) as [set|e|] eqn:E;
      try discriminate.
    intros [= <-]. f_equal. eapply IH. exact E.
Qed.

(** What [createOverlayDecorations] returns is the sorted accumulation. *)
Lemma createOverlayDecorations_sorts : returnsSortedAccumulation.
Proof.
  intros fuel vw s ds s'. unfold createOverlayDecorations, bind, get, lift.
  destruct (forM (_overlays s) [] (scanOverlay fuel vw) s)
    as [[acc|e|] s1]; try discriminate.
  unfold RangeSetBuilder_finish.
  destruct (RangeSetBuilder_addAll _ _ _) as [set|e|] eqn:E; try discriminate.
  intros [= <- <-]. apply RangeSetBuilder_addAll_Ok in E. subst set.
  exists acc. split; [reflexivity|]. split; [reflexivity|].
  apply Array_sort_compareRanges.
Qed.

Lemma firstCharOverlay_lineError : lineErrorOverlay firstCharOverlay.
Proof.
  intros reader st. simpl.
  destruct (pos reader =? 0); simpl; split; try reflexivity; lia.
Qed.

(** C7, as stated, fails where a line is empty: over the fully visible
    three-line document [ab], empty line, [def], the overlay of the claim
    is called on the first and the third line only and the recompute returns
    two decorations, at offsets 0 and 4. *)
Lemma empty_line_gets_no_line_decoration :
  lineErrorOverlay firstCharOverlay
  /\ Text_lines (doc emptyMiddleView) = 3
  /\ visibleRanges emptyMiddleView = [(0, Text_length (doc emptyMiddleView))]
  /\ fst (createOverlayDecorations 3 emptyMiddleView
            (run (addOverlay firstCharOverlay) (create emptyMiddleView)))
     = Ok [lineStartRange (Decoration_line 0 lineErrorClass None) 0;
           lineStartRange (Decoration_line 0 lineErrorClass None) 4]
  /\ ~ threeLineStartDecorations 3 emptyMiddleView
        (run (addOverlay firstCharOverlay) (create emptyMiddleView)).
Proof.
  split; [exact firstCharOverlay_lineError|].
  split; [reflexivity|]. split; [reflexivity|]. split; [reflexivity|].
  intros (r1 & r2 & r3 & s' & line1 & line2 & line3 & Hrun & _).
  apply (f_equal fst) in Hrun. vm_compute in Hrun. discriminate Hrun.
Qed.

(** C7, amended: with the line-error overlay as the only overlay, over a
    fully visible document of three non-empty lines, on a decorator whose
    cache holds nothing but a line decoration for the class,
    [createOverlayDecorations] returns exactly three ranges: zero-width,
    each holding the same line decoration, at the start offsets of lines 1,
    2 and 3, in ascending order.  And for every recompute that returns, the
    set returned is the list the overlays accumulated, sorted by [from],
    then [to]. *)
Theorem line_error_overlay_three_lines (o : StreamParser) (l1 l2 l3 : string)
  (vw : EditorView) (s : Decorator) (fuel : nat) :
  lineErrorOverlay o ->
  l1 <> EmptyString -> l2 <> EmptyString -> l3 <> EmptyString ->
  doc vw = [l1; l2; l3] ->
  visibleRanges vw = [(0, Text_length (doc vw))] ->
  _overlays s = [o] ->
  (forall d, _decorationCache s !! lineErrorClass = Some d ->
             kind d = LineDecoration) ->
  strlen l1 <= Z.of_nat fuel -> strlen l2 <= Z.of_nat fuel ->
  strlen l3 <= Z.of_nat fuel ->
  threeLineStartDecorations fuel vw s
  /\ (exists d s',
        createOverlayDecorations fuel vw s
        = (Ok [lineStartRange d 0; lineStartRange d (strlen l1 + 1);
               lineStartRange d (strlen l1 + strlen l2 + 2)], s')
        /\ kind d = LineDecoration
        /\ (_decorationCache s !! lineErrorClass = None ->
            d = Decoration_line (nextRef s) lineErrorClass None))
  /\ returnsSortedAccumulation.
Proof.
  intros Ho Hn1 Hn2 Hn3 Hdoc Hvis Hov Hcache Hf1 Hf2 Hf3.
  apply strlen_pos in Hn1, Hn2, Hn3.
  destruct (lineError_decoration s Hcache) as (d & s1 & Hd & Hk & Hd1 & Hfresh).
  destruct (threeLines_lineAt_start l1 l2 l3 Hn1 Hn2 Hn3) as (la & Hla & Hna).
  destruct (threeLines_lineAt_end l1 l2 l3 Hn1 Hn2 Hn3) as (lb & Hlb & Hnb).
  pose proof (threeLines_line1 l1 l2 l3) as HL1.
  pose proof (threeLines_line2 l1 l2 l3) as HL2.
  pose proof (threeLines_line3 l1 l2 l3) as HL3.
  rewrite <- Hdoc in Hla, Hlb, HL1, HL2, HL3.
  set (st0 := overlayStartState o vw).
  destruct (scanLineNumber_lineError o vw fuel st0 [] s d s1 1 _
              Ho HL1 Hn1 Hf1 Hd Hk) as (st1 & Hs1).
  destruct (scanLineNumber_lineError o vw fuel st1
              ([] ++ [lineStartRange d 0]) s1 d s1 2 _
              Ho HL2 Hn2 Hf2 Hd1 Hk) as (st2 & Hs2).
  destruct (scanLineNumber_lineError o vw fuel st2
              (([] ++ [lineStartRange d 0])
               ++ [lineStartRange d (0 + strlen l1 + 1)]) s1 d s1 3 _
              Ho HL3 Hn3 Hf3 Hd1 Hk) as (st3 & Hs3).
  simpl in Hs1, Hs2, Hs3.
  assert (Hrun : createOverlayDecorations fuel vw s
                 = (Ok [lineStartRange d 0;
                        lineStartRange d (0 + strlen l1 + 1);
                        lineStartRange d (0 + strlen l1 + 1 + strlen l2 + 1)],
                    s1)).
  { unfold createOverlayDecorations, bind, get. rewrite Hov. cbn [forM].
    unfold bind. unfold scanOverlay, bind. rewrite Hvis. cbn [forM].
    unfold bind. unfold scanVisibleRange at 1. unfold bind, lift.
    cbn [fst snd]. rewrite Hla, Hlb, Hna, Hnb.
    change (seqZ 1 (3 - 1 + 1)) with [1; 2; 3]. cbn [forM]. unfold bind.
    fold st0. rewrite Hs1, Hs2, Hs3. unfold ret. cbn [snd].
    rewrite Array_sort_of_sorted.
    + unfold RangeSetBuilder_finish.
      rewrite RangeSetBuilder_addAll_increasing; [reflexivity| |].
      * repeat constructor; simpl; lia.
      * repeat constructor; simpl; lia.
    + repeat constructor; unfold rangeOrder; simpl; lia. }
  split; [|split; [|exact createOverlayDecorations_sorts]].
  - eexists _, _, _, s1, _, _, _.
    split; [exact Hrun|]. split; [exact HL1|]. split; [exact HL2|].
    split; [exact HL3|]. simpl. rewrite Hk. repeat split; lia.
  - exists d, s1. split; [|split; [exact Hk|exact Hfresh]].
    rewrite Hrun.
    replace (0 + strlen l1 + 1) with (strlen l1 + 1) by lia.
    replace (strlen l1 + 1 + strlen l2 + 1)
      with (strlen l1 + strlen l2 + 2) by lia.
    reflexivity.
Qed.

Lemma line_error_overlay_three_lines_witness :
  threeLineStartDecorations 3 threeLineView
    (run (addOverlay firstCharOverlay) (create threeLineView))
  /\ (exists d s',
        createOverlayDecorations 3 threeLineView
          (run (addOverlay firstCharOverlay) (create threeLineView))
        = (Ok [lineStartRange d 0; lineStartRange d (strlen "ab" + 1);
               lineStartRange d (strlen "ab" + strlen "c" + 2)], s')
        /\ kind d = LineDecoration
        /\ (_decorationCache
              (run (addOverlay firstCharOverlay) (create threeLineView))
            !! lineErrorClass = None ->
            d = Decoration_line
                  (nextRef (run (addOverlay firstCharOverlay)
                              (create threeLineView)))
                  lineErrorClass None))
  /\ returnsSortedAccumulation.
Proof.
  apply (line_error_overlay_three_lines firstCharOverlay "ab" "c" "def"
           threeLineView
           (run (addOverlay firstCharOverlay) (create threeLineView)) 3).
  - exact firstCharOverlay_lineError.
  - discriminate.
  - discriminate.
  - discriminate.
  - reflexivity.
  - reflexivity.
  - reflexivity.
  - intros d H. vm_compute in H. discriminate H.
  - vm_compute. discriminate.
  - vm_compute. discriminate.
  - vm_compute. discriminate.
Defined.

(** * Further properties *)

(** ** The decoration cache *)

(** X1: a request to the cache always returns a decoration; afterwards the
    cache maps the requested class to the decoration returned, the entries
    of all other classes are what they were, so no entry is ever dropped,
    and nothing but the cache and the allocation counter has changed. *)
Theorem cache_holds_what_it_returned (c : string) (isLine : bool)
  (id : option Z) (s : Decorator) :
  exists d s',
    classNameToCssDecoration c isLine id s = (Ok d, s')
    /\ _decorationCache s' !! c = Some d
    /\ (forall c', c' <> c ->
          _decorationCache s' !! c' = _decorationCache s !! c')
    /\ (forall c', is_Some (_decorationCache s !! c') ->
          is_Some (_decorationCache s' !! c'))
    /\ sameStores s s'
    /\ (nextRef s <= nextRef s')%nat.
Proof.
  unfold classNameToCssDecoration. unfold_monad.
  destruct (_decorationCache s !! c) as [d|] eqn:E; [destruct id as [i|]|].
  - eexists. eexists. split; [reflexivity|]. simpl.
    split; [apply lookup_insert_eq|].
    split; [intros c' Hne; apply lookup_insert_ne; congruence|].
    split.
    + intros c' Hc. destruct (decide (c = c')) as [->|Hne].
      * rewrite lookup_insert_eq. eauto.
      * rewrite lookup_insert_ne by exact Hne. exact Hc.
    + split; [repeat split|lia].
  - exists d, s. split; [reflexivity|]. split; [exact E|].
    split; [reflexivity|]. split; [trivial|].
    split; [repeat split|lia].
  - eexists. eexists. split; [reflexivity|]. simpl.
    split; [apply lookup_insert_eq|].
    split; [intros c' Hne; apply lookup_insert_ne; congruence|].
    split.
    + intros c' Hc. destruct (decide (c = c')) as [->|Hne].
      * rewrite lookup_insert_eq. eauto.
      * rewrite lookup_insert_ne by exact Hne. exact Hc.
    + split; [repeat split|lia].
Qed.

(** ** Line classes *)

Lemma addRemoveLineClass_on_line s n c add line :
  Text_line (doc (editor s)) (n + 1) = Ok line ->
  addRemoveLineClass n c add s
  = dispatch
      [(if add then addLineDecorationEffect else removeLineDecorationEffect)
         {| cssClass := c; css_from := from line; css_to := to line;
            css_id := None |}] s.
Proof.
  intros H. unfold addRemoveLineClass, bind, get, lift. rewrite H.
  reflexivity.
Qed.

(** X2: on an existing line, when the cache has no decoration for the class
    or holds a line decoration for it, [addLineClass] adds exactly one range
    to the canonical set: zero-width, at the start of the line whatever the
    line's length, holding a line decoration that is cached under the class
    afterwards; every range that was in the set stays. *)
Theorem addLineClass_adds_one_zero_width_range (s : Decorator) (n : Z)
  (w c : string) (line : Line) :
  Text_line (doc (editor s)) (n + 1) = Ok line ->
  (forall d, _decorationCache s !! c = Some d -> kind d = LineDecoration) ->
  exists d s',
    addLineClass n w c s = (Ok tt, s')
    /\ kind d = LineDecoration
    /\ _decorationCache s' !! c = Some d
    /\ (_decorationCache s !! c = None -> d = Decoration_line (nextRef s) c None)
    /\ _effectDecorations s'
       = RangeSet_add {| range_from := from line; range_to := from line;
                         value := d |} (_effectDecorations s)
    /\ forall r, In r (_effectDecorations s')
                 <-> r = {| range_from := from line; range_to := from line;
                            value := d |}
                     \/ In r (_effectDecorations s).
Proof.
  intros Hline Hcache. unfold addLineClass.
  rewrite (addRemoveLineClass_on_line _ _ _ _ _ Hline), dispatch_single.
  cbn [applyEffect]. unfold addCssDecoration, classNameToCssDecoration.
  unfold_monad.
  destruct (_decorationCache s !! c) as [d|] eqn:E.
  - specialize (Hcache d eq_refl). unfold Decoration_range. rewrite Hcache.
    rewrite Z.eqb_refl. simpl.
    exists d. eexists. split; [reflexivity|]. simpl.
    split; [exact Hcache|]. split; [exact E|]. split; [discriminate|].
    split; [reflexivity|]. intros r. apply RangeSet_add_In.
  - unfold Decoration_range. simpl. rewrite Z.eqb_refl. simpl.
    exists (Decoration_line (nextRef s) c None). eexists.
    split; [reflexivity|]. simpl.
    split; [reflexivity|]. split; [apply lookup_insert_eq|].
    split; [reflexivity|]. split; [reflexivity|].
    intros r. apply RangeSet_add_In.
Qed.

Lemma addLineClass_adds_one_zero_width_range_witness :
  exists d s',
    addLineClass 1 EmptyString "hl" (create sampleView) = (Ok tt, s')
    /\ kind d = LineDecoration
    /\ _decorationCache s' !! "hl"%string = Some d
    /\ (_decorationCache (create sampleView) !! "hl"%string = None ->
        d = Decoration_line (nextRef (create sampleView)) "hl" None)
    /\ _effectDecorations s'
       = RangeSet_add {| range_from := 4; range_to := 4; value := d |}
           (_effectDecorations (create sampleView))
    /\ forall r, In r (_effectDecorations s')
                 <-> r = {| range_from := 4; range_to := 4; value := d |}
                     \/ In r (_effectDecorations (create sampleView)).
Proof.
  apply (addLineClass_adds_one_zero_width_range (create sampleView) 1
           EmptyString "hl"
           {| line_from := 4; line_to := 7; number := 2; text := "def" |}).
  - reflexivity.
  - intros d H. vm_compute in H. discriminate H.
Defined.

(** X3: the cache is keyed by the class name alone.  After
    [markText(f, t, { className: c })] has cached a mark decoration under
    [c], [addLineClass] with the same class on any existing line throws the
    library's RangeError for an empty mark range and changes nothing. *)
Theorem addLineClass_after_markText_same_class_throws (s : Decorator)
  (f t n : Z) (w c : string) (line : Line) :
  f < t ->
  Text_line (doc (editor s)) (n + 1) = Ok line ->
  exists h s1,
    markText f t (Some {| mark_className := Some c |}) s = (Ok h, s1)
    /\ addLineClass n w c s1
       = (Throw (RangeError "Mark decorations may not be empty"), s1).
Proof.
  intros Hlt Hline. unfold markText. unfold_monad.
  rewrite dispatch_single. cbn [applyEffect].
  unfold addCssDecoration, classNameToCssDecoration. unfold_monad.
  assert (Hr : forall d0, Decoration_range
                 (Decoration_mark d0 c (Some (_nextLineWidgetId s))) f t
               = Ok {| range_from := f; range_to := t;
                       value := Decoration_mark d0 c
                                  (Some (_nextLineWidgetId s)) |}).
  { intros d0. unfold Decoration_range. simpl.
    destruct (t <=? f) eqn:E; [apply Z.leb_le in E; lia|reflexivity]. }
  destruct (_decorationCache s !! c); simpl; rewrite Hr; simpl;
    (eexists; eexists; split; [reflexivity|]);
    unfold addLineClass;
    (rewrite (addRemoveLineClass_on_line _ _ _ _ line) by exact Hline);
    rewrite dispatch_single; cbn [applyEffect];
    unfold addCssDecoration, classNameToCssDecoration; unfold_monad;
    rewrite lookup_insert_eq; unfold Decoration_range; simpl;
    rewrite Z.leb_refl; reflexivity.
Qed.

Lemma addLineClass_after_markText_same_class_throws_witness :
  exists h s1,
    markText 1 5 (Some {| mark_className := Some "x"%string |})
      (create sampleView) = (Ok h, s1)
    /\ addLineClass 0 EmptyString "x" s1
       = (Throw (RangeError "Mark decorations may not be empty"), s1).
Proof.
  apply (addLineClass_after_markText_same_class_throws (create sampleView)
           1 5 0 EmptyString "x" firstLine).
  - lia.
  - reflexivity.
Defined.

(** X4: a line number without a line makes every facade operation that
    takes one throw the document's RangeError before anything is
    dispatched: the decorator is left exactly as it was. *)
Theorem line_operations_reject_missing_line (s : Decorator) (n : Z)
  (w c : string) (el : HTMLElement) (o : LineWidgetOptions) :
  noSuchLine s n ->
  addLineClass n w c s = (Throw (RangeError "Invalid line number"), s)
  /\ removeLineClass n w c s = (Throw (RangeError "Invalid line number"), s)
  /\ getLineClasses n s = (Throw (RangeError "Invalid line number"), s)
  /\ getLineWidgets n s = (Throw (RangeError "Invalid line number"), s)
  /\ addLineWidget n el o s = (Throw (RangeError "Invalid line number"), s).
Proof.
  intros Hn.
  assert (H : Text_line (doc (editor s)) (n + 1)
              = Throw (RangeError "Invalid line number")).
  { unfold Text_line.
    destruct ((n + 1 <? 1) || (Text_lines (doc (editor s)) <? n + 1)) eqn:E;
      [reflexivity|].
    apply orb_false_iff in E as [E1 E2].
    apply Z.ltb_ge in E1, E2. destruct Hn; lia. }
  unfold addLineClass, removeLineClass, addRemoveLineClass, getLineClasses,
    getLineWidgets, addLineWidget, bind, get, lift.
  rewrite H. repeat split.
Qed.

Lemma line_operations_reject_missing_line_witness :
  addLineClass 2 EmptyString "hl" (create sampleView)
  = (Throw (RangeError "Invalid line number"), create sampleView).
Proof.
  apply (line_operations_reject_missing_line (create sampleView) 2
           EmptyString "hl" 0%nat {| className := None; above := None |}).
  right. vm_compute. reflexivity.
Defined.

(** ** The effect reducer *)

Lemma sameStores_refl s : sameStores s s.
Proof. repeat split. Qed.

Lemma sameStores_trans a b c :
  sameStores a b -> sameStores b c -> sameStores a c.
Proof.
  unfold sameStores. intros (H1 & H2 & H3 & H4) (K1 & K2 & K3 & K4).
  repeat split; congruence.
Qed.

Lemma classNameToCssDecoration_frame c isLine id s :
  exists d s',
    classNameToCssDecoration c isLine id s = (Ok d, s') /\ sameStores s s'.
Proof.
  unfold classNameToCssDecoration. unfold_monad.
  destruct (_decorationCache s !! c) as [d|]; [destruct id|];
    eexists; eexists; (split; [reflexivity|repeat split]).
Qed.

(** A loop keeps what each of its iterations keeps. *)
Lemma forM_preserves {A B} (R : Decorator -> Decorator -> Prop)
  (body : B -> A -> M B) :
  (forall s, R s s) ->
  (forall a b c, R a b -> R b c -> R a c) ->
  (forall acc x s, R s (snd (body acc x s))) ->
  forall l acc s, R s (snd (forM l acc body s)).
Proof.
  intros Hrefl Htrans Hbody. induction l as [|x rest IH]; intros acc s.
  - apply Hrefl.
  - cbn [forM]. unfold bind. specialize (Hbody acc x s).
    destruct (body acc x s) as [[acc1|e|] s1]; simpl in *;
      [eapply Htrans; [exact Hbody|apply IH]|exact Hbody|exact Hbody].
Qed.

Lemma applyEffect_frame tr ds e s :
  sameStores s (snd (applyEffect tr ds e s)).
Proof.
  destruct e as [v|v|v|v| |v|el|]; cbn [applyEffect];
    try apply sameStores_refl.
  - unfold addCssDecoration, bind.
    destruct (classNameToCssDecoration_frame (cssClass v) true (css_id v) s)
      as (d & s' & -> & Hs).
    unfold lift. destruct (Decoration_range _ _ _); exact Hs.
  - unfold removeCssDecoration, bind, lift.
    destruct (Text_lineAt _ (from v)); try apply sameStores_refl.
    destruct (Text_lineAt _ (to v)); try apply sameStores_refl.
    destruct (classNameToCssDecoration_frame (cssClass v) true None s)
      as (d & s' & -> & Hs).
    exact Hs.
  - unfold addCssDecoration, bind.
    destruct (classNameToCssDecoration_frame (cssClass v) false (css_id v) s)
      as (d & s' & -> & Hs).
    unfold lift. destruct (Decoration_range _ _ _); exact Hs.
  - unfold removeCssDecoration, bind, lift.
    destruct (Text_lineAt _ (from v)); try apply sameStores_refl.
    destruct (Text_lineAt _ (to v)); try apply sameStores_refl.
    destruct (classNameToCssDecoration_frame (cssClass v) false None s)
      as (d & s' & -> & Hs).
    exact Hs.
  - unfold_monad. destruct (truthy (above (lw_options v))); repeat split.
Qed.

Lemma reducer_loop_frame trs ds s :
  sameStores s
    (snd (forM trs ds
            (fun decorations transaction =>
               forM (effects transaction)
                 (RangeSet_map (changes transaction) decorations)
                 (applyEffect transaction)) s)).
Proof.
  apply (forM_preserves sameStores).
  - apply sameStores_refl.
  - apply sameStores_trans.
  - intros acc tr s0. apply (forM_preserves sameStores).
    + apply sameStores_refl.
    + apply sameStores_trans.
    + intros acc0 e s1. apply applyEffect_frame.
Qed.

(** X5: [updateEffectDecorations] assigns the canonical set only at its end.
    When it returns, the stored set is the set it returns; when any effect
    of any transaction throws, the stored set is still the one from before
    the call, also if earlier effects of the batch had been applied.  The
    editor, the overlay list and the identity counter are never touched. *)
Theorem updateEffectDecorations_all_or_nothing (trs : list Transaction)
  (s : Decorator) :
  let '(r, s') := updateEffectDecorations trs s in
  match r with
  | Ok ds => _effectDecorations s' = ds
  | _ => _effectDecorations s' = _effectDecorations s
  end
  /\ editor s' = editor s
  /\ _overlays s' = _overlays s
  /\ _nextLineWidgetId s' = _nextLineWidgetId s.
Proof.
  unfold updateEffectDecorations, bind, get, modify, ret.
  pose proof (reducer_loop_frame trs (_effectDecorations s) s) as H.
  destruct (forM trs (_effectDecorations s) _ s) as [[ds|e|] s0];
    simpl in H; destruct H as (H1 & H2 & H3 & H4); simpl;
    repeat split; congruence.
Qed.

Lemma set_effectDecorations_same s :
  set_effectDecorations (_effectDecorations s) s = s.
Proof. destruct s. reflexivity. Qed.

Lemma no_mutation_effects tr ds s effs :
  Forall (fun e => isDecorationMutation e = false) effs ->
  forM effs ds (applyEffect tr) s = (Ok ds, s).
Proof.
  induction 1 as [|e rest He _ IH]; cbn [forM]; [reflexivity|].
  unfold bind.
  destruct e; simpl in He; try discriminate; cbn [applyEffect];
    unfold ret; exact IH.
Qed.

(** X6: transactions that change nothing in the document and carry only
    refresh signals or effects of other extensions leave the decorator
    exactly as it was, and the set is returned as it stood. *)
Theorem foreign_transactions_change_nothing (trs : list Transaction)
  (s : Decorator) :
  Forall carriesNoMutation trs ->
  updateEffectDecorations trs s = (Ok (_effectDecorations s), s).
Proof.
  intros H. unfold updateEffectDecorations, bind, get.
  assert (Hloop : forall ds s0,
            forM trs ds
              (fun decorations transaction =>
                 forM (effects transaction)
                   (RangeSet_map (changes transaction) decorations)
                   (applyEffect transaction)) s0 = (Ok ds, s0)).
  { induction H as [|tr rest [Hempty Heffs] _ IH]; intros ds s0;
      cbn [forM]; [reflexivity|].
    unfold bind. unfold RangeSet_map. rewrite Hempty.
    rewrite (no_mutation_effects _ _ _ _ Heffs). apply IH. }
  rewrite Hloop. unfold modify, ret.
  rewrite set_effectDecorations_same. reflexivity.
Qed.

Lemma foreign_transactions_change_nothing_witness :
  updateEffectDecorations
    [refreshTransaction;
     {| changes := ChangeDesc_empty; effects := [foreignEffect];
        tr_doc := doc sampleView |}] stateWithMarkAndWidget
  = (Ok (_effectDecorations stateWithMarkAndWidget), stateWithMarkAndWidget).
Proof.
  apply (foreign_transactions_change_nothing
           [refreshTransaction;
            {| changes := ChangeDesc_empty; effects := [foreignEffect];
               tr_doc := doc sampleView |}] stateWithMarkAndWidget).
  repeat constructor.
Defined.

Lemma Text_lineAt_outside doc p :
  noSuchPosition doc p ->
  Text_lineAt doc p = Throw (RangeError "Invalid position").
Proof.
  intros H. unfold Text_lineAt.
  destruct ((p <? 0) || (Text_length doc <? p)) eqn:E; [reflexivity|].
  apply orb_false_iff in E as [E1 E2]. apply Z.ltb_ge in E1, E2.
  destruct H; lia.
Qed.

(** X7: [clear()] on a mark handle looks up the lines of the handle's
    original ends in the current document before it filters.  If one of the
    ends is no longer a position of the document, [clear()] throws the
    document's RangeError and removes nothing: the decorator is left as it
    was, the mark included. *)
Theorem clear_throws_when_end_left_document (h : MarkHandle) (s : Decorator) :
  noSuchPosition (doc (editor s)) (from (effectOptions h))
  \/ noSuchPosition (doc (editor s)) (to (effectOptions h)) ->
  MarkHandle_clear h s = (Throw (RangeError "Invalid position"), s).
Proof.
  intros H. unfold MarkHandle_clear. rewrite dispatch_single.
  cbn [applyEffect]. unfold removeCssDecoration, bind, lift.
  cbn [tr_doc effectTransaction].
  destruct (Text_lineAt (doc (editor s)) (from (effectOptions h)))
    as [lf|e|] eqn:Ef.
  - destruct H as [H|H].
    + rewrite (Text_lineAt_outside _ _ H) in Ef. discriminate Ef.
    + rewrite (Text_lineAt_outside _ _ H). reflexivity.
  - destruct H as [H|H].
    + rewrite (Text_lineAt_outside _ _ H) in Ef. injection Ef as <-.
      reflexivity.
    + unfold Text_lineAt in Ef.
      destruct ((from (effectOptions h) <? 0)
                || (Text_length (doc (editor s)) <? from (effectOptions h)));
        [injection Ef as <-; reflexivity|].
      destruct (List.find _ _); [discriminate|].
      injection Ef as <-. reflexivity.
  - unfold Text_lineAt in Ef.
    destruct ((from (effectOptions h) <? 0)
              || (Text_length (doc (editor s)) <? from (effectOptions h)));
      [discriminate|].
    destruct (List.find _ _); discriminate.
Qed.

Lemma clear_throws_when_end_left_document_witness :
  MarkHandle_clear sampleHandle stateAfterShrinking
  = (Throw (RangeError "Invalid position"), stateAfterShrinking).
Proof.
  apply (clear_throws_when_end_left_document sampleHandle stateAfterShrinking).
  right. right. vm_compute. reflexivity.
Defined.

(** X8: a remove effect that carries an identity removes by identity alone.
    Two such effects with the same identity give the same set whatever
    their class names, their ranges (as long as the ends are positions of
    the document) and whether they are line or mark removals: the set
    without the decorations of that identity. *)
Theorem identity_removal_ignores_class_and_range (tr : Transaction)
  (v1 v2 : CssDecorationSpec) (line1 line2 : bool) (id : Z)
  (ds : DecorationSet) (s1 s2 : Decorator) :
  css_id v1 = Some id -> css_id v2 = Some id ->
  0 <= from v1 <= Text_length (tr_doc tr) ->
  0 <= to v1 <= Text_length (tr_doc tr) ->
  0 <= from v2 <= Text_length (tr_doc tr) ->
  0 <= to v2 <= Text_length (tr_doc tr) ->
  exists kept,
    fst (removeCssDecoration line1 tr v1 ds s1) = Ok kept
    /\ fst (removeCssDecoration line2 tr v2 ds s2) = Ok kept
    /\ forall r, In r kept
                 <-> In r ds /\ spec_id (spec (value r)) <> Some id.
Proof.
  intros Hid1 Hid2 Hf1 Ht1 Hf2 Ht2.
  destruct (removeCssDecoration_with_id line1 tr v1 ds s1 id Hid1 Hf1 Ht1)
    as (s1' & -> & _).
  destruct (removeCssDecoration_with_id line2 tr v2 ds s2 id Hid2 Hf2 Ht2)
    as (s2' & -> & _).
  eexists. split; [reflexivity|]. split; [reflexivity|].
  intros r. rewrite List.filter_In, keepsOtherIds_true. reflexivity.
Qed.

Lemma identity_removal_ignores_class_and_range_witness :
  exists kept,
    fst (removeCssDecoration true refreshTransaction
           {| css_from := 0; css_to := 0; cssClass := "a"; css_id := Some 0 |}
           (_effectDecorations stateWithMarkAndWidget) (create sampleView))
    = Ok kept
    /\ fst (removeCssDecoration false refreshTransaction
              {| css_from := 1; css_to := 5; cssClass := "x";
                 css_id := Some 0 |}
              (_effectDecorations stateWithMarkAndWidget)
              stateWithMarkAndWidget)
       = Ok kept
    /\ forall r, In r kept
                 <-> In r (_effectDecorations stateWithMarkAndWidget)
                     /\ spec_id (spec (value r)) <> Some 0.
Proof.
  apply (identity_removal_ignores_class_and_range refreshTransaction
           {| css_from := 0; css_to := 0; cssClass := "a"; css_id := Some 0 |}
           {| css_from := 1; css_to := 5; cssClass := "x"; css_id := Some 0 |}
           true false 0 (_effectDecorations stateWithMarkAndWidget)
           (create sampleView) stateWithMarkAndWidget).
  - reflexivity.
  - reflexivity.
  - vm_compute. split; discriminate.
  - vm_compute. split; discriminate.
  - vm_compute. split; discriminate.
  - vm_compute. split; discriminate.
Defined.

(** ** Remapping effects *)

Lemma min_max_of_min_max (g : Z -> Z) a b :
  Z.min (g (Z.min a b)) (g (Z.max a b)) = Z.min (g a) (g b)
  /\ Z.max (g (Z.min a b)) (g (Z.max a b)) = Z.max (g a) (g b).
Proof.
  destruct (Z.le_ge_cases a b) as [H|H].
  - rewrite (Z.min_l a b), (Z.max_r a b) by lia. split; reflexivity.
  - rewrite (Z.min_r a b), (Z.max_l a b) by lia.
    split; [apply Z.min_comm|apply Z.max_comm].
Qed.

(** X9: remapping an effect through one change and then through a second
    gives the same effect as remapping it once through the composition of
    the two, for every effect and every pair of changes: the reordering
    of the ends after the first step loses nothing. *)
Theorem StateEffect_map_composes (e : StateEffect)
  (first second : ChangeDesc) :
  StateEffect_map (StateEffect_map e first) second
  = StateEffect_map e (ChangeDesc_compose first second).
Proof.
  destruct e as [v|v|v|v| |v|el|]; try reflexivity;
    cbn [StateEffect_map]; f_equal; unfold mapRangeConfig_map;
    cbn [from to withRange CssDecorationSpec_range
         LineWidgetDecorationSpec_range css_from css_to cssClass css_id
         lw_from lw_to lw_element lw_options ChangeDesc_compose mapPos];
    match goal with
    | |- context [mapPos second (Z.min ?a ?b)] =>
        destruct (min_max_of_min_max (mapPos second) a b) as [-> ->]
    end; reflexivity.
Qed.

(** ** Marks *)

Lemma markText_ok s f t c :
  f < t ->
  exists s1,
    markText f t (Some {| mark_className := Some c |}) s
    = (Ok {| effectOptions :=
               {| css_from := f; css_to := t; cssClass := c;
                  css_id := Some (_nextLineWidgetId s) |} |}, s1)
    /\ editor s1 = editor s
    /\ _effectDecorations s1
       = RangeSet_add
           {| range_from := f; range_to := t;
              value := Decoration_mark (nextRef s) c
                         (Some (_nextLineWidgetId s)) |}
           (_effectDecorations s)
    /\ _nextLineWidgetId s1 = _nextLineWidgetId s + 1.
Proof.
  intros Hlt. unfold markText. unfold_monad.
  rewrite dispatch_single. cbn [applyEffect].
  unfold addCssDecoration, classNameToCssDecoration. unfold_monad.
  assert (Hr : Decoration_range
                 (Decoration_mark (nextRef s) c (Some (_nextLineWidgetId s)))
                 f t
               = Ok {| range_from := f; range_to := t;
                       value := Decoration_mark (nextRef s) c
                                  (Some (_nextLineWidgetId s)) |}).
  { unfold Decoration_range. simpl.
    destruct (t <=? f) eqn:E; [apply Z.leb_le in E; lia|reflexivity]. }
  destruct (_decorationCache s !! c); simpl; rewrite Hr; simpl;
    eexists; (split; [reflexivity|repeat split]).
Qed.

(** X10: how [markText] fails.  Without an options object it throws a
    TypeError before touching anything.  With a range that is empty or
    reversed it throws the library's RangeError for an empty mark, and the
    canonical set is unchanged; the identity it had drawn is consumed all
    the same, and the mark decoration it had built stays in the cache under
    its class name. *)
Theorem markText_failures (s : Decorator) (f t : Z) (c : string) :
  fst (markText f t None s)
  = Throw (TypeError "Cannot read properties of undefined")
  /\ snd (markText f t None s) = s
  /\ (t <= f ->
      exists s',
        markText f t (Some {| mark_className := Some c |}) s
        = (Throw (RangeError "Mark decorations may not be empty"), s')
        /\ _effectDecorations s' = _effectDecorations s
        /\ _nextLineWidgetId s' = _nextLineWidgetId s + 1
        /\ _decorationCache s' !! c
           = Some (Decoration_mark (nextRef s) c (Some (_nextLineWidgetId s)))).
Proof.
  split; [reflexivity|]. split; [reflexivity|].
  intros Hle. unfold markText. unfold_monad.
  rewrite dispatch_single. cbn [applyEffect].
  unfold addCssDecoration, classNameToCssDecoration. unfold_monad.
  assert (Hr : Decoration_range
                 (Decoration_mark (nextRef s) c (Some (_nextLineWidgetId s)))
                 f t
               = Throw (RangeError "Mark decorations may not be empty")).
  { unfold Decoration_range. simpl.
    destruct (t <=? f) eqn:E; [reflexivity|apply Z.leb_gt in E; lia]. }
  destruct (_decorationCache s !! c); simpl; rewrite Hr; simpl;
    eexists; (split; [reflexivity|]); simpl;
    (split; [reflexivity|split; [reflexivity|apply lookup_insert_eq]]).
Qed.

(** X11: marks are independent of each other.  Two successive [markText]
    calls draw different identities, and clearing the first handle removes
    the first mark only: the second mark is still in the canonical set, over
    its own range and with its own class. *)
Theorem clearing_one_mark_keeps_the_other (s : Decorator)
  (f1 t1 f2 t2 : Z) (c1 c2 : string) :
  0 <= f1 -> f1 < t1 -> t1 <= Text_length (doc (editor s)) -> f2 < t2 ->
  exists h1 s1 h2 s2 s3,
    markText f1 t1 (Some {| mark_className := Some c1 |}) s = (Ok h1, s1)
    /\ markText f2 t2 (Some {| mark_className := Some c2 |}) s1 = (Ok h2, s2)
    /\ css_id (effectOptions h1) <> css_id (effectOptions h2)
    /\ MarkHandle_clear h1 s2 = (Ok tt, s3)
    /\ (forall r, In r (_effectDecorations s3) ->
          spec_id (spec (value r)) <> css_id (effectOptions h1))
    /\ exists r,
         In r (_effectDecorations s3)
         /\ from r = f2 /\ to r = t2
         /\ kind (value r) = MarkDecoration
         /\ renderedClass (value r) = Some c2
         /\ spec_id (spec (value r)) = css_id (effectOptions h2).
Proof.
  intros H0 H1 Hlen H2.
  destruct (markText_ok s f1 t1 c1 H1) as (s1 & Hm1 & He1 & Hs1 & Hn1).
  destruct (markText_ok s1 f2 t2 c2 H2) as (s2 & Hm2 & He2 & Hs2 & Hn2).
  destruct (MarkHandle_clear_with_id
              {| effectOptions :=
                   {| css_from := f1; css_to := t1; cssClass := c1;
                      css_id := Some (_nextLineWidgetId s) |} |}
              s2 (_nextLineWidgetId s)) as (s3 & Hc & Hs3 & _).
  { reflexivity. }
  { rewrite He2, He1. simpl. lia. }
  { rewrite He2, He1. simpl. lia. }
  eexists _, s1, _, s2, s3.
  split; [exact Hm1|]. split; [exact Hm2|]. simpl.
  split; [rewrite Hn1; intros [= H]; lia|].
  split; [exact Hc|]. rewrite Hs3. split.
  - intros r Hin. apply List.filter_In in Hin as [_ Hk].
    apply keepsOtherIds_true in Hk. exact Hk.
  - eexists. split.
    + apply List.filter_In. split.
      * rewrite Hs2. apply RangeSet_add_In. left. reflexivity.
      * apply keepsOtherIds_true. simpl. rewrite Hn1. intros [= H]. lia.
    + simpl. repeat split.
Qed.

Lemma clearing_one_mark_keeps_the_other_witness :
  exists h1 s1 h2 s2 s3,
    markText 0 3 (Some {| mark_className := Some "a"%string |})
      (create sampleView) = (Ok h1, s1)
    /\ markText 2 6 (Some {| mark_className := Some "b"%string |}) s1
       = (Ok h2, s2)
    /\ css_id (effectOptions h1) <> css_id (effectOptions h2)
    /\ MarkHandle_clear h1 s2 = (Ok tt, s3)
    /\ (forall r, In r (_effectDecorations s3) ->
          spec_id (spec (value r)) <> css_id (effectOptions h1))
    /\ exists r,
         In r (_effectDecorations s3)
         /\ from r = 2 /\ to r = 6
         /\ kind (value r) = MarkDecoration
         /\ renderedClass (value r) = Some "b"%string
         /\ spec_id (spec (value r)) = css_id (effectOptions h2).
Proof.
  apply (clearing_one_mark_keeps_the_other (create sampleView) 0 3 2 6
           "a" "b").
  - lia.
  - lia.
  - vm_compute. discriminate.
  - lia.
Defined.

Lemma markText_failures_witness :
  exists s',
    markText 3 3 (Some {| mark_className := Some "a"%string |})
      (create sampleView)
    = (Throw (RangeError "Mark decorations may not be empty"), s')
    /\ _effectDecorations s' = _effectDecorations (create sampleView)
    /\ _nextLineWidgetId s' = _nextLineWidgetId (create sampleView) + 1
    /\ _decorationCache s' !! "a"%string
       = Some (Decoration_mark (nextRef (create sampleView)) "a"
                 (Some (_nextLineWidgetId (create sampleView)))).
Proof.
  apply (markText_failures (create sampleView) 3 3 "a"). lia.
Defined.

(** ** Line widgets *)

Lemma getLineWidgets_fold line (set : list Range) acc :
  from line <= to line ->
  fold_left
    (fun lineWidgets r =>
       if (from line <=? from r) && (from r <=? to line) && (from r =? to r)
       then match spec_widget (spec (value r)) with
            | Some widget =>
                lineWidgets
                ++ [createLineWidgetControl (element widget) (options widget)]
            | None => lineWidgets
            end
       else lineWidgets)
    (RangeSet_between (from line) (to line) set) acc
  = acc ++ lineWidgetControls line set.
Proof.
  intros Hle. revert acc. unfold RangeSet_between, lineWidgetControls.
  induction set as [|r rest IH]; intros acc;
    cbn [List.filter flat_map fold_left].
  - symmetry. apply app_nil_r.
  - destruct ((from line <=? from r) && (from r <=? to line)
              && (from r =? to r)) eqn:E.
    + pose proof E as E'.
      apply andb_true_iff in E' as [E' E3].
      apply andb_true_iff in E' as [E1 E2].
      apply Z.leb_le in E1, E2. apply Z.eqb_eq in E3.
      assert (Hb : (from r <=? to line) && (from line <=? to r) = true).
      { apply andb_true_iff; split; apply Z.leb_le; lia. }
      rewrite Hb. cbn [fold_left]. rewrite E.
      destruct (spec_widget (spec (value r))).
      * rewrite IH. rewrite <- app_assoc. reflexivity.
      * apply IH.
    + destruct ((from r <=? to line) && (from line <=? to r));
        cbn [fold_left app].
      * rewrite E. apply IH.
      * apply IH.
Qed.

Lemma getLineWidgets_on_line s n line :
  Text_line (doc (editor s)) (n + 1) = Ok line ->
  getLineWidgets n s = (Ok (lineWidgetControls line (_effectDecorations s)), s).
Proof.
  intros H. unfold getLineWidgets, bind, get, lift, ret. rewrite H.
  rewrite getLineWidgets_fold by (eapply Text_line_from_le_to; exact H).
  reflexivity.
Qed.

Lemma addLineWidget_on_line s n el o line :
  Text_line (doc (editor s)) (n + 1) = Ok line ->
  addLineWidget n el o s
  = (Ok (createLineWidgetControl el o),
     set_effectDecorations
       (RangeSet_add
          {| range_from := widgetAnchor line o;
             range_to := widgetAnchor line o;
             value := Decoration_widget (nextRef s)
                        {| element := el; options := o |}
                        (if truthy (above o) then -1 else 1) true |}
          (_effectDecorations s))
       (set_nextRef (S (nextRef s)) s)).
Proof.
  intros H. unfold addLineWidget, bind, get, lift. rewrite H.
  rewrite dispatch_single. cbn [applyEffect]. unfold_monad.
  unfold widgetAnchor. destruct (truthy (above o)); reflexivity.
Qed.

(** X12: on an existing line, [addLineWidget] adds one zero-width block
    widget decoration, at the start of the line when [above] is set and at
    its end otherwise, and a following [getLineWidgets] for the same line
    returns a control for the node, with the class name of the options. *)
Theorem addLineWidget_then_getLineWidgets (s : Decorator) (n : Z)
  (el : HTMLElement) (o : LineWidgetOptions) (line : Line) :
  Text_line (doc (editor s)) (n + 1) = Ok line ->
  exists ctl s1 controls,
    addLineWidget n el o s = (Ok ctl, s1)
    /\ node ctl = el /\ control_className ctl = className o
    /\ (forall r, In r (_effectDecorations s1)
                  <-> r = {| range_from := widgetAnchor line o;
                             range_to := widgetAnchor line o;
                             value := Decoration_widget (nextRef s)
                                        {| element := el; options := o |}
                                        (if truthy (above o) then -1 else 1)
                                        true |}
                      \/ In r (_effectDecorations s))
    /\ getLineWidgets n s1 = (Ok controls, s1)
    /\ In ctl controls.
Proof.
  intros Hline. rewrite (addLineWidget_on_line _ _ _ _ _ Hline).
  eexists. eexists. eexists. split; [reflexivity|].
  split; [reflexivity|]. split; [reflexivity|].
  split; [intros r; apply RangeSet_add_In|].
  split; [apply getLineWidgets_on_line; exact Hline|].
  unfold lineWidgetControls. apply in_flat_map.
  eexists. split.
  - simpl. apply RangeSet_add_In. left. reflexivity.
  - pose proof (Text_line_from_le_to _ _ _ Hline) as Hle.
    cbn [from to Range_range range_from range_to value].
    assert (Hc : (from line <=? widgetAnchor line o)
                 && (widgetAnchor line o <=? to line)
                 && (widgetAnchor line o =? widgetAnchor line o) = true).
    { rewrite Z.eqb_refl, andb_true_r. unfold widgetAnchor.
      destruct (truthy (above o)); apply andb_true_iff; split;
        apply Z.leb_le; lia. }
    rewrite Hc. simpl. left. reflexivity.
Qed.

Lemma addLineWidget_then_getLineWidgets_witness :
  exists ctl s1 controls,
    addLineWidget 1 7%nat {| className := Some "note"%string;
                             above := Some true |} (create sampleView)
    = (Ok ctl, s1)
    /\ node ctl = 7%nat
    /\ control_className ctl = Some "note"%string
    /\ (forall r, In r (_effectDecorations s1)
                  <-> r = {| range_from := 4; range_to := 4;
                             value := Decoration_widget 0
                                        {| element := 7%nat;
                                           options :=
                                             {| className :=
                                                  Some "note"%string;
                                                above := Some true |} |}
                                        (-1) true |}
                      \/ In r (_effectDecorations (create sampleView)))
    /\ getLineWidgets 1 s1 = (Ok controls, s1)
    /\ In ctl controls.
Proof.
  apply (addLineWidget_then_getLineWidgets (create sampleView) 1 7%nat
           {| className := Some "note"%string; above := Some true |}
           {| line_from := 4; line_to := 7; number := 2; text := "def" |}).
  reflexivity.
Defined.

Lemma lineWidgetControls_nodes line set ctl :
  In ctl (lineWidgetControls line set) ->
  exists r, In r set /\ widgetElement (value r) = Some (node ctl).
Proof.
  unfold lineWidgetControls. intros H.
  apply in_flat_map in H as (r & Hin & Hr). exists r. split; [exact Hin|].
  destruct ((from line <=? from r) && (from r <=? to line)
            && (from r =? to r)); [|contradiction].
  unfold widgetElement.
  destruct (spec_widget (spec (value r))) as [w|]; [|contradiction].
  destruct Hr as [<-|[]]. reflexivity.
Qed.

(** X13: [clear()] on a line widget control never throws and removes every
    widget that wraps the control's node, on whatever line it sits and
    however often the node was added: afterwards [getLineWidgets] returns no
    control for that node on any line.  Decorations that wrap other nodes,
    or none, all stay. *)
Theorem widget_clear_removes_node_everywhere (ctl : LineWidgetControl)
  (s : Decorator) :
  exists s1,
    LineWidgetControl_clear ctl s = (Ok tt, s1)
    /\ editor s1 = editor s
    /\ (forall r, In r (_effectDecorations s1)
                  <-> In r (_effectDecorations s)
                      /\ widgetElement (value r) <> Some (node ctl))
    /\ forall n controls other,
         fst (getLineWidgets n s1) = Ok controls ->
         In other controls -> node other <> node ctl.
Proof.
  rewrite LineWidgetControl_clear_spec. eexists. split; [reflexivity|].
  split; [reflexivity|].
  assert (Hiff : forall r,
            In r (List.filter
                    (fun r => negb (option_nat_eqb (widgetElement (value r))
                                                   (Some (node ctl))))
                    (_effectDecorations s))
            <-> In r (_effectDecorations s)
                /\ widgetElement (value r) <> Some (node ctl)).
  { intros r. rewrite List.filter_In, negb_true_iff.
    split; intros [Hin H]; split; trivial.
    - intros Heq. apply option_nat_eqb_eq in Heq. congruence.
    - destruct (option_nat_eqb _ _) eqn:E; trivial.
      apply option_nat_eqb_eq in E. contradiction. }
  split; [exact Hiff|].
  intros n controls other Hget Hin.
  unfold getLineWidgets, bind, get, lift, ret in Hget.
  cbn [editor set_effectDecorations _effectDecorations] in Hget.
  destruct (Text_line (doc (editor s)) (n + 1)) as [line|e|] eqn:E;
    try discriminate.
  cbn [fst] in Hget.
  rewrite getLineWidgets_fold in Hget
    by (eapply Text_line_from_le_to; exact E).
  injection Hget as <-. simpl in Hin.
  apply lineWidgetControls_nodes in Hin as (r & Hr & Hw).
  apply Hiff in Hr as [_ Hne]. congruence.
Qed.

(** ** The overlay plugin *)

(** X14: when the viewport or the document changed, [update] recomputes the
    overlay decorations exactly once and does not look at the transactions:
    whatever effects they carry, the outcome is that of one recompute.  The
    plugin's decorations become the recomputed set when the recompute
    returns, and stay as they were when it throws. *)
Theorem update_on_change_recomputes_once (fuel : nat) (u : ViewUpdate)
  (this : OverlayPlugin) (s : Decorator) :
  viewportChanged u || docChanged u = true ->
  let '(r, this', s') := update fuel u this s in
  recomputes this' = S (recomputes this)
  /\ (r, s') = (match fst (createOverlayDecorations fuel (view u) s) with
                | Ok _ => Ok tt
                | Throw e => Throw e
                | Diverges => Diverges
                end, snd (createOverlayDecorations fuel (view u) s))
  /\ decorations this'
     = match fst (createOverlayDecorations fuel (view u) s) with
       | Ok ds => ds
       | _ => decorations this
       end.
Proof.
  intros H. unfold update. rewrite H. unfold doUpdate.
  destruct (createOverlayDecorations fuel (view u) s) as [[ds|e|] s'];
    simpl; repeat split.
Qed.

Lemma update_on_change_recomputes_once_witness :
  let '(r, this', s') :=
    update 5
      {| viewportChanged := true; docChanged := false;
         transactions := [refreshTransaction; refreshTransaction];
         view := sampleView |} emptyPlugin (create sampleView) in
  recomputes this' = S (recomputes emptyPlugin)
  /\ (r, s') = (match fst (createOverlayDecorations 5 sampleView
                             (create sampleView)) with
                | Ok _ => Ok tt
                | Throw e => Throw e
                | Diverges => Diverges
                end,
                snd (createOverlayDecorations 5 sampleView
                       (create sampleView)))
  /\ decorations this'
     = match fst (createOverlayDecorations 5 sampleView
                    (create sampleView)) with
       | Ok ds => ds
       | _ => decorations emptyPlugin
       end.
Proof.
  apply (update_on_change_recomputes_once 5
           {| viewportChanged := true; docChanged := false;
              transactions := [refreshTransaction; refreshTransaction];
              view := sampleView |} emptyPlugin (create sampleView)).
  reflexivity.
Defined.

(** X15: an update that changed neither the viewport nor the document and
    whose transactions carry no refresh signal does nothing: no recompute,
    no error, the plugin and the decorator are left as they were, whatever
    decoration effects the transactions carry. *)
Theorem update_without_refresh_is_idle (fuel : nat) (u : ViewUpdate)
  (this : OverlayPlugin) (s : Decorator) :
  viewportChanged u = false -> docChanged u = false ->
  Forall (fun tr => Forall (fun e => isRefresh e = false) (effects tr))
    (transactions u) ->
  update fuel u this s = (Ok tt, this, s).
Proof.
  intros Hv Hd Hr. apply update_without_trigger; try assumption.
  induction Hr as [|tr rest Htr _ IH]; simpl; [reflexivity|].
  rewrite IH, orb_false_r.
  induction Htr as [|e effs He _ IHe]; simpl; [reflexivity|].
  rewrite He, IHe. reflexivity.
Qed.

Lemma update_without_refresh_is_idle_witness :
  update 0
    {| viewportChanged := false; docChanged := false;
       transactions :=
         [ {| changes := ChangeDesc_empty;
              effects := [removeLineWidgetEffect 3%nat; foreignEffect];
              tr_doc := doc sampleView |} ];
       view := sampleView |} emptyPlugin stateWithStuckOverlay
  = (Ok tt, emptyPlugin, stateWithStuckOverlay).
Proof.
  apply (update_without_refresh_is_idle 0
           {| viewportChanged := false; docChanged := false;
              transactions :=
                [ {| changes := ChangeDesc_empty;
                     effects := [removeLineWidgetEffect 3%nat; foreignEffect];
                     tr_doc := doc sampleView |} ];
              view := sampleView |} emptyPlugin stateWithStuckOverlay).
  - reflexivity.
  - reflexivity.
  - repeat constructor.
Defined.



(** ** The overlay engine *)

Lemma makeDecoration_frame tokenName start stop s :
  sameStores s (snd (makeDecoration tokenName start stop s)).
Proof.
  unfold makeDecoration, bind.
  destruct (classNameToCssDecoration_frame
              ("cm-" ++ tokenName)%string (startsWith "line-" tokenName)
              None s) as (d & s' & -> & Hs).
  unfold lift. destruct (Decoration_range d start stop); exact Hs.
Qed.

Lemma pushTokenDecorations_frame line lastPos readerPos acc tok s :
  sameStores s (snd (pushTokenDecorations line lastPos readerPos acc tok s)).
Proof.
  unfold pushTokenDecorations. apply (forM_preserves sameStores).
  - apply sameStores_refl.
  - apply sameStores_trans.
  - intros acc0 name s0.
    destruct (startsWith "line-" name); unfold bind;
      match goal with
      | |- context [makeDecoration ?a ?b ?c ?d] =>
          pose proof (makeDecoration_frame a b c d) as Hm;
          destruct (makeDecoration a b c d) as [[r|e|] s1]; exact Hm
      end.
Qed.

Lemma scanLine_frame fuel o vw line :
  forall p st acc s,
    sameStores s (snd (scanLine fuel o vw line p st acc s)).
Proof.
  induction fuel as [|fuel IH]; intros p st acc s; cbn [scanLine];
    destruct (StringStream_eol (lineReader vw line p));
    try apply sameStores_refl.
  destruct (token o (lineReader vw line p) st) as [[tok p1] st1].
  unfold bind.
  pose proof (pushTokenDecorations_frame line p p1 acc tok s) as Hp.
  destruct (pushTokenDecorations line p p1 acc tok s) as [[acc1|e|] s1];
    simpl in Hp; try exact Hp.
  destruct (p1 =? p); [exact Hp|].
  eapply sameStores_trans; [exact Hp|apply IH].
Qed.

Lemma scanLineNumber_frame fuel o vw acc i s :
  sameStores s (snd (scanLineNumber fuel o vw acc i s)).
Proof.
  unfold scanLineNumber, bind, lift.
  destruct (Text_line (doc vw) i); try apply sameStores_refl.
  apply scanLine_frame.
Qed.

Lemma scanVisibleRange_frame fuel o vw acc range s :
  sameStores s (snd (scanVisibleRange fuel o vw acc range s)).
Proof.
  unfold scanVisibleRange, bind, lift.
  destruct (Text_lineAt (doc vw) (fst range)); try apply sameStores_refl.
  destruct (Text_lineAt (doc vw) (snd range)); try apply sameStores_refl.
  apply (forM_preserves sameStores).
  - apply sameStores_refl.
  - apply sameStores_trans.
  - intros. apply scanLineNumber_frame.
Qed.

Lemma scanOverlay_frame fuel vw acc o s :
  sameStores s (snd (scanOverlay fuel vw acc o s)).
Proof.
  unfold scanOverlay, bind.
  pose proof (forM_preserves sameStores (scanVisibleRange fuel o vw)
                sameStores_refl sameStores_trans
                (fun a r s0 => scanVisibleRange_frame fuel o vw a r s0)
                (visibleRanges vw) (overlayStartState o vw, acc) s) as H.
  destruct (forM (visibleRanges vw) _ _ s) as [[acc1|e|] s1]; exact H.
Qed.

(** X17: a recompute of the overlay decorations never touches the canonical
    decoration set, the editor, the overlay list or the identity counter,
    whether it returns, throws or runs out of fuel: it only reads them, and
    writes the decoration cache and the allocation counter. *)
Theorem overlay_recompute_leaves_canonical_set (fuel : nat)
  (vw : EditorView) (s : Decorator) :
  sameStores s (snd (createOverlayDecorations fuel vw s)).
Proof.
  unfold createOverlayDecorations, bind, get.
  pose proof (forM_preserves sameStores
                (fun acc o => scanOverlay fuel vw acc o)
                sameStores_refl sameStores_trans
                (fun a o s0 => scanOverlay_frame fuel vw a o s0)
                (_overlays s) [] s) as H.
  destruct (forM (_overlays s) [] _ s) as [[acc|e|] s1]; exact H.
Qed.

(** X18: whenever a recompute returns a decoration set, the set is ordered
    by [from] and, among equal [from], by [to], whatever order the overlays
    and their tokens produced the decorations in. *)
Theorem overlay_set_is_sorted (fuel : nat) (vw : EditorView)
  (s s' : Decorator) (ds : DecorationSet) :
  createOverlayDecorations fuel vw s = (Ok ds, s') ->
  Sorted rangeOrder ds.
Proof.
  unfold createOverlayDecorations, bind, get, lift.
  destruct (forM (_overlays s) [] _ s) as [[acc|e|] s1]; try discriminate.
  unfold RangeSetBuilder_finish.
  destruct (RangeSetBuilder_addAll _ _ _) as [set|e|] eqn:E; try discriminate.
  intros [= <- <-]. apply RangeSetBuilder_addAll_Ok in E. subst set.
  apply Array_sort_compareRanges.
Qed.

Lemma overlay_set_is_sorted_witness :
  Sorted rangeOrder
    [lineStartRange (Decoration_line 0 lineErrorClass None) 0;
     lineStartRange (Decoration_line 0 lineErrorClass None) 3;
     lineStartRange (Decoration_line 0 lineErrorClass None) 5].
Proof.
  apply (overlay_set_is_sorted 3 threeLineView stateWithFirstCharOverlay
           (snd (createOverlayDecorations 3 threeLineView
                   stateWithFirstCharOverlay))).
  vm_compute. reflexivity.
Defined.

Lemma scanLine_advancing_terminates o vw line :
  advances o ->
  forall fuel p st acc s,
    strlen (text line) - p <= Z.of_nat fuel ->
    fst (scanLine fuel o vw line p st acc s) <> Diverges.
Proof.
  intros Ho. induction fuel as [|fuel IH]; intros p st acc s Hfuel;
    cbn [scanLine]; rewrite lineReader_eol;
    destruct (strlen (text line) <=? p) eqn:E; try discriminate.
  - apply Z.leb_gt in E. simpl in Hfuel. lia.
  - apply Z.leb_gt in E.
    pose proof (Ho (lineReader vw line p) st) as Hadv.
    destruct (token o (lineReader vw line p) st) as [[tok p1] st1].
    simpl in Hadv. unfold bind.
    pose proof (pushTokenDecorations_never_diverges line p p1 acc tok s) as Hp.
    destruct (pushTokenDecorations line p p1 acc tok s) as [[acc1|e|] s1];
      simpl in Hp; [|discriminate|congruence].
    destruct (p1 =? p); [discriminate|].
    apply IH. lia.
Qed.

Lemma Text_line_In doc i l :
  Text_line doc i = Ok l -> In l (Text_allLines doc).
Proof.
  unfold Text_line.
  destruct ((i <? 1) || (Text_lines doc <? i)); [discriminate|].
  destruct (Text_allLines doc !! Z.to_nat (i - 1)) as [l'|] eqn:E;
    [|discriminate].
  intros [= <-]. apply list_elem_of_In. eapply list_elem_of_lookup_2, E.
Qed.

Lemma Text_line_never_diverges doc i : Text_line doc i <> Diverges.
Proof.
  unfold Text_line.
  destruct ((i <? 1) || (Text_lines doc <? i)); [discriminate|].
  destruct (Text_allLines doc !! Z.to_nat (i - 1)); discriminate.
Qed.

Lemma Text_lineAt_never_diverges doc p : Text_lineAt doc p <> Diverges.
Proof.
  unfold Text_lineAt.
  destruct ((p <? 0) || (Text_length doc <? p)); [discriminate|].
  destruct (List.find _ _); discriminate.
Qed.

Lemma forM_never_diverges_in {A B} (body : B -> A -> M B) l :
  (forall acc x s, In x l -> fst (body acc x s) <> Diverges) ->
  forall acc s, fst (forM l acc body s) <> Diverges.
Proof.
  induction l as [|x rest IH]; intros Hbody acc s; cbn [forM].
  - discriminate.
  - unfold bind. pose proof (Hbody acc x s (or_introl eq_refl)) as Hx.
    destruct (body acc x s) as [[acc1|e|] s1]; simpl in *;
      [apply IH; intros; apply Hbody; right; assumption
      |discriminate|congruence].
Qed.

Lemma RangeSetBuilder_addAll_never_diverges l :
  forall lastFrom last, RangeSetBuilder_addAll lastFrom last l <> Diverges.
Proof.
  induction l as [|r rest IH]; intros lastFrom last; simpl; [discriminate|].
  destruct (_ <? 0); [discriminate|].
  specialize (IH (from r) (Some (value r))).
  destruct (RangeSetBuilder_addAll _ _ rest); [discriminate|discriminate|].
  congruence.
Qed.

Lemma scanLineNumber_advancing_terminates fuel o vw acc i s :
  advances o ->
  (forall line, In line (Text_allLines (doc vw)) ->
                strlen (text line) <= Z.of_nat fuel) ->
  fst (scanLineNumber fuel o vw acc i s) <> Diverges.
Proof.
  intros Ho Hfuel. unfold scanLineNumber, bind, lift.
  pose proof (Text_line_never_diverges (doc vw) i) as Hd.
  destruct (Text_line (doc vw) i) as [line|e|] eqn:E;
    [|discriminate|congruence].
  apply scanLine_advancing_terminates; [exact Ho|].
  apply Text_line_In in E. specialize (Hfuel line E). lia.
Qed.

Lemma scanOverlay_advancing_terminates fuel vw acc o s :
  advances o ->
  (forall line, In line (Text_allLines (doc vw)) ->
                strlen (text line) <= Z.of_nat fuel) ->
  fst (scanOverlay fuel vw acc o s) <> Diverges.
Proof.
  intros Ho Hfuel. unfold scanOverlay, bind.
  assert (H : forall a s0,
            fst (forM (visibleRanges vw) a (scanVisibleRange fuel o vw) s0)
            <> Diverges).
  { apply forM_never_diverges. intros a range s0.
    unfold scanVisibleRange, bind, lift.
    pose proof (Text_lineAt_never_diverges (doc vw) (fst range)) as H1.
    destruct (Text_lineAt (doc vw) (fst range)); [|discriminate|congruence].
    pose proof (Text_lineAt_never_diverges (doc vw) (snd range)) as H2.
    destruct (Text_lineAt (doc vw) (snd range)); [|discriminate|congruence].
    apply forM_never_diverges. intros accL i sL.
    apply scanLineNumber_advancing_terminates; assumption. }
  specialize (H (overlayStartState o vw, acc) s).
  destruct (forM (visibleRanges vw) _ _ s) as [[a1|e|] s1]; simpl in *;
    [discriminate|discriminate|congruence].
Qed.

(** X19: if every registered overlay moves the stream forward on each token
    call, a recompute ends: with fuel for as many token calls as the longest
    line of the document has characters, [createOverlayDecorations] returns
    a set or throws, it does not run on. *)
Theorem advancing_overlays_terminate (fuel : nat) (vw : EditorView)
  (s : Decorator) :
  Forall advances (_overlays s) ->
  (forall line, In line (Text_allLines (doc vw)) ->
                strlen (text line) <= Z.of_nat fuel) ->
  fst (createOverlayDecorations fuel vw s) <> Diverges.
Proof.
  intros Ho Hfuel. unfold createOverlayDecorations, bind, get.
  assert (H : fst (forM (_overlays s) [] (scanOverlay fuel vw) s)
              <> Diverges).
  { apply forM_never_diverges_in. intros acc o s0 Hin.
    apply scanOverlay_advancing_terminates; [|exact Hfuel].
    rewrite Forall_forall in Ho. apply Ho. apply list_elem_of_In. exact Hin. }
  destruct (forM (_overlays s) [] (scanOverlay fuel vw) s) as [[acc|e|] s1];
    simpl in *; [|discriminate|congruence].
  unfold lift, RangeSetBuilder_finish. simpl.
  apply RangeSetBuilder_addAll_never_diverges.
Qed.

Lemma firstCharOverlay_advances : advances firstCharOverlay.
Proof.
  intros reader st. simpl. destruct (pos reader =? 0); simpl; lia.
Qed.

Lemma advancing_overlays_terminate_witness :
  fst (createOverlayDecorations 3 threeLineView stateWithFirstCharOverlay)
  <> Diverges.
Proof.
  apply (advancing_overlays_terminate 3 threeLineView
           stateWithFirstCharOverlay).
  - repeat constructor. exact firstCharOverlay_advances.
  - intros line Hin. simpl in Hin.
    destruct Hin as [<-|[<-|[<-|[]]]]; vm_compute; discriminate.
Defined.

Lemma scanLine_oscillating o vw line p q :
  oscillates o vw line p q ->
  forall fuel st acc s,
    scanLine fuel o vw line p st acc s = (Diverges, s)
    /\ scanLine fuel o vw line q st acc s = (Diverges, s).
Proof.
  intros (Hne & Hp & Hq & Hpq & Hqp).
  assert (Ep : (strlen (text line) <=? p) = false) by (apply Z.leb_gt; lia).
  assert (Eq : (strlen (text line) <=? q) = false) by (apply Z.leb_gt; lia).
  induction fuel as [|fuel IH]; intros st acc s; cbn [scanLine];
    rewrite !lineReader_eol, Ep, Eq.
  - split; reflexivity.
  - destruct (Hpq st) as [st1 ->]. destruct (Hqp st) as [st2 ->].
    unfold bind. unfold pushTokenDecorations. cbn [tokenClassNames forM].
    unfold ret.
    destruct (q =? p) eqn:E1; [apply Z.eqb_eq in E1; congruence|].
    destruct (p =? q) eqn:E2; [apply Z.eqb_eq in E2; congruence|].
    split; apply IH.
Qed.

(** X20: the check after a token call only compares the stream position
    with the position before that call.  An overlay that returns no token
    and alternates between two positions of the first visible line is not
    caught: the recompute neither returns nor throws, however many token
    calls it is given. *)
Theorem alternating_overlay_never_ends (fuel : nat) (vw : EditorView)
  (s : Decorator) (o : StreamParser) (rest : list StreamParser)
  (range : Z * Z) (ranges : list (Z * Z)) (fromLine toLine line : Line)
  (q : Z) :
  _overlays s = o :: rest ->
  visibleRanges vw = range :: ranges ->
  Text_lineAt (doc vw) (fst range) = Ok fromLine ->
  Text_lineAt (doc vw) (snd range) = Ok toLine ->
  number fromLine <= number toLine ->
  Text_line (doc vw) (number fromLine) = Ok line ->
  oscillates o vw line 0 q ->
  createOverlayDecorations fuel vw s = (Diverges, s).
Proof.
  intros Hov Hvis Hfl Htl Hle Hline Hosc.
  unfold createOverlayDecorations, bind, get. rewrite Hov. cbn [forM].
  unfold bind. unfold scanOverlay at 1. unfold bind. rewrite Hvis.
  cbn [forM]. unfold bind. unfold scanVisibleRange at 1. unfold bind, lift.
  rewrite Hfl, Htl.
  rewrite seqZ_cons by lia. cbn [forM]. unfold bind.
  unfold scanLineNumber at 1. unfold bind, lift. rewrite Hline.
  destruct (scanLine_oscillating o vw line 0 q Hosc fuel
              (fst (overlayStartState o vw, @nil Range))
              (snd (overlayStartState o vw, @nil Range)) s) as [-> _].
  reflexivity.
Qed.

Lemma alternating_overlay_never_ends_witness :
  createOverlayDecorations 1000 sampleView
    (run (addOverlay pingPongOverlay) (create sampleView))
  = (Diverges, run (addOverlay pingPongOverlay) (create sampleView)).
Proof.
  apply (alternating_overlay_never_ends 1000 sampleView
           (run (addOverlay pingPongOverlay) (create sampleView))
           pingPongOverlay [] (0, 7) [] firstLine
           {| line_from := 4; line_to := 7; number := 2; text := "def" |}
           firstLine 1).
  - reflexivity.
  - reflexivity.
  - reflexivity.
  - reflexivity.
  - simpl. lia.
  - reflexivity.
  - repeat split; try (vm_compute; reflexivity); try discriminate;
      intros st; exists st; reflexivity.
Defined.

Lemma idless_request_keeps_entries c isLine s d s' :
  classNameToCssDecoration c isLine None s = (Ok d, s') ->
  _decorationCache s' !! c = Some d
  /\ forall k d0, _decorationCache s !! k = Some d0 ->
                  _decorationCache s' !! k = Some d0.
Proof.
  unfold classNameToCssDecoration. unfold_monad.
  destruct (_decorationCache s !! c) as [d1|] eqn:E; intros [= <- <-].
  - split; [exact E|trivial].
  - simpl. split; [apply lookup_insert_eq|].
    intros k d0 Hk. destruct (decide (c = k)) as [->|Hne].
    + congruence.
    + rewrite lookup_insert_ne by exact Hne. exact Hk.
Qed.

Lemma Decoration_range_Ok d f t r :
  Decoration_range d f t = Ok r ->
  from r = f /\ to r = t /\ value r = d.
Proof.
  unfold Decoration_range.
  destruct (kind d); [destruct (negb (t =? f))|destruct (t <=? f)|];
    try discriminate; intros [= <-]; repeat split.
Qed.

Lemma makeDecoration_Ok name start stop s r s' :
  makeDecoration name start stop s = (Ok r, s') ->
  from r = start /\ to r = stop
  /\ _decorationCache s' !! ("cm-" ++ name)%string = Some (value r)
  /\ forall k d0, _decorationCache s !! k = Some d0 ->
                  _decorationCache s' !! k = Some d0.
Proof.
  unfold makeDecoration, bind, lift.
  destruct (classNameToCssDecoration _ _ None s) as [[d|e|] s1] eqn:E;
    try discriminate.
  apply idless_request_keeps_entries in E as [Hc Hmono].
  destruct (Decoration_range d start stop) as [r0|e|] eqn:Er;
    try discriminate.
  intros [= <- <-]. apply Decoration_range_Ok in Er as (H1 & H2 & H3).
  rewrite H3. repeat split; assumption.
Qed.

Lemma pushTokenDecorations_loop line lastPos readerPos names :
  forall acc s acc' s',
    forM names acc
      (fun newDecorations className =>
         if startsWith "line-" className
         then
           do r <- makeDecoration className (from line) (from line) ;
           ret (newDecorations ++ [r])
         else
           let f := lastPos + from line in
           let t := readerPos + from line in
           do r <- makeDecoration className f t ;
           ret (newDecorations ++ [r])) s = (Ok acc', s') ->
    (forall k d0, _decorationCache s !! k = Some d0 ->
                  _decorationCache s' !! k = Some d0)
    /\ exists new,
         acc' = acc ++ new
         /\ Forall2 (decoratesToken s' line lastPos readerPos) names new.
Proof.
  induction names as [|name rest IH]; intros acc s acc' s'; cbn [forM].
  - intros [= <- <-]. split; [trivial|].
    exists []. split; [symmetry; apply app_nil_r|constructor].
  - unfold bind at 1.
    destruct (startsWith "line-" name) eqn:Ep; unfold bind at 1;
      match goal with
      | |- context [makeDecoration ?a ?b ?c ?d] =>
          destruct (makeDecoration a b c d) as [[r|e|] s1] eqn:Em;
          try discriminate
      end;
      unfold ret; intros Hrest;
      apply makeDecoration_Ok in Em as (Hf & Ht & Hc & Hmono);
      apply IH in Hrest as (Hmono' & new & -> & Hall);
      (split; [intros k d0 Hk; apply Hmono', Hmono, Hk|]);
      exists (r :: new); (split; [rewrite <- app_assoc; reflexivity|]);
      constructor; try exact Hall;
      unfold decoratesToken; rewrite Ep;
      (split; [apply Hmono', Hc|split; assumption]).
Qed.

(** X21: when the decorations of one token are pushed without an error,
    the list grows at its end by exactly one decoration per class name of
    the token, in the order of the names.  Each is the decoration cached
    under the name prefixed with [cm-]; a name that starts with [line-]
    gets a zero-width range at the start of the line, any other name the
    range from the position before the token call to the position after it,
    shifted by the line's start. *)
Theorem token_names_become_decorations (line : Line) (lastPos readerPos : Z)
  (acc : list Range) (tok : option string) (s : Decorator)
  (acc' : list Range) (s' : Decorator) :
  pushTokenDecorations line lastPos readerPos acc tok s = (Ok acc', s') ->
  exists new,
    acc' = acc ++ new
    /\ Forall2 (decoratesToken s' line lastPos readerPos)
         (tokenClassNames tok) new.
Proof.
  unfold pushTokenDecorations. intros H.
  apply pushTokenDecorations_loop in H as [_ H]. exact H.
Qed.

(** A no-break space separates class names like a space does. *)
Lemma split_at_no_break_space :
  tokenClassNames (Some ("a" ++ String (ascii_of_nat 160) "b")%string)
  = ["a"; "b"]%string.
Proof. reflexivity. Qed.

Lemma token_names_become_decorations_witness :
  exists new,
    [ {| range_from := 4; range_to := 6;
         value := Decoration_mark 0 "cm-kw" None |};
      {| range_from := 4; range_to := 4;
         value := Decoration_line 1 "cm-line-x" None |} ] = [] ++ new
    /\ Forall2
         (decoratesToken
            (snd (pushTokenDecorations
                    {| line_from := 4; line_to := 7; number := 2;
                       text := "def" |} 0 2 []
                    (Some "kw line-x"%string) (create sampleView)))
            {| line_from := 4; line_to := 7; number := 2; text := "def" |}
            0 2)
         (tokenClassNames (Some "kw line-x"%string)) new.
Proof.
  apply (token_names_become_decorations
           {| line_from := 4; line_to := 7; number := 2; text := "def" |}
           0 2 [] (Some "kw line-x"%string) (create sampleView)).
  vm_compute. reflexivity.
Defined.

(** ** What [getLineClasses] can report *)

Lemma create_withoutSpecClass e : withoutSpecClass (create e).
Proof.
  split.
  - intros r [].
  - intros k d H. simpl in H. rewrite lookup_empty in H. discriminate H.
Qed.

Lemma classNameToCssDecoration_withoutSpecClass c isLine id s :
  withoutSpecClass s ->
  exists d s',
    classNameToCssDecoration c isLine id s = (Ok d, s')
    /\ spec_class (spec d) = None
    /\ withoutSpecClass s'.
Proof.
  intros [Hset Hcache]. unfold classNameToCssDecoration. unfold_monad.
  assert (Hfresh : forall d,
            spec_class (spec d) = None ->
            withoutSpecClass
              (set_decorationCache (<[c:=d]> (_decorationCache s))
                 (set_nextRef (S (nextRef s)) s))).
  { intros d Hd. split; [exact Hset|]. intros k d0. simpl.
    destruct (decide (c = k)) as [->|Hne].
    - rewrite lookup_insert_eq. intros [= <-]. exact Hd.
    - rewrite lookup_insert_ne by exact Hne. apply Hcache. }
  destruct (_decorationCache s !! c) as [d|] eqn:E; [destruct id as [i|]|].
  - eexists. eexists. split; [reflexivity|]. split.
    + destruct isLine; reflexivity.
    + apply Hfresh. destruct isLine; reflexivity.
  - exists d, s. split; [reflexivity|]. split; [eapply Hcache, E|].
    split; assumption.
  - eexists. eexists. split; [reflexivity|]. split.
    + destruct isLine; reflexivity.
    + apply Hfresh. destruct isLine; reflexivity.
Qed.

(** A loop keeps an invariant of the state and one of the accumulator when
    each iteration does. *)
Lemma forM_invariant {A B} (P : B -> Prop) (Q : Decorator -> Prop)
  (body : B -> A -> M B) :
  (forall acc x s, P acc -> Q s ->
     Q (snd (body acc x s))
     /\ forall acc', fst (body acc x s) = Ok acc' -> P acc') ->
  forall l acc s, P acc -> Q s ->
    Q (snd (forM l acc body s))
    /\ forall acc', fst (forM l acc body s) = Ok acc' -> P acc'.
Proof.
  intros Hbody. induction l as [|x rest IH]; intros acc s HP HQ; cbn [forM].
  - split; [exact HQ|]. intros acc' [= <-]. exact HP.
  - unfold bind. destruct (Hbody acc x s HP HQ) as [HQ1 HP1].
    destruct (body acc x s) as [[acc1|e|] s1]; simpl in *.
    + apply IH; [apply HP1; reflexivity|exact HQ1].
    + split; [exact HQ1|discriminate].
    + split; [exact HQ1|discriminate].
Qed.

Lemma RangeSet_map_withoutSpecClass changes ds :
  rangesWithoutSpecClass ds -> rangesWithoutSpecClass (RangeSet_map changes ds).
Proof.
  intros H. unfold RangeSet_map. destruct (empty changes); [exact H|].
  intros r Hin. apply in_flat_map in Hin as (r0 & Hin0 & Hr).
  specialize (H r0 Hin0). unfold Range_map in Hr.
  destruct (from r0 =? to r0); [destruct Hr as [<-|[]]; exact H|].
  destruct (_ || _); [contradiction|].
  destruct Hr as [<-|[]]. exact H.
Qed.

Lemma applyEffect_withoutSpecClass tr ds e s :
  rangesWithoutSpecClass ds -> withoutSpecClass s ->
  withoutSpecClass (snd (applyEffect tr ds e s))
  /\ forall ds', fst (applyEffect tr ds e s) = Ok ds' ->
                 rangesWithoutSpecClass ds'.
Proof.
  intros HP HQ.
  assert (Hadd : forall isLine v,
            withoutSpecClass (snd (addCssDecoration isLine v ds s))
            /\ forall ds', fst (addCssDecoration isLine v ds s) = Ok ds' ->
                           rangesWithoutSpecClass ds').
  { intros isLine v. unfold addCssDecoration, bind, lift.
    destruct (classNameToCssDecoration_withoutSpecClass
                (cssClass v) isLine (css_id v) s HQ)
      as (d & s' & -> & Hd & HQ').
    destruct (Decoration_range d _ _) as [r|err|] eqn:Er; simpl;
      (split; [exact HQ'|]); try discriminate.
    intros ds' [= <-] x Hx. apply RangeSet_add_In in Hx as [->|Hx].
    - apply Decoration_range_Ok in Er as (_ & _ & ->). exact Hd.
    - apply HP, Hx. }
  assert (Hrem : forall isLine v,
            withoutSpecClass (snd (removeCssDecoration isLine tr v ds s))
            /\ forall ds', fst (removeCssDecoration isLine tr v ds s) = Ok ds'
                           -> rangesWithoutSpecClass ds').
  { intros isLine v. unfold removeCssDecoration, bind, lift.
    destruct (Text_lineAt (tr_doc tr) (from v)) as [lf|err|];
      [|split; [exact HQ|intros ds' Hx; discriminate Hx]..].
    destruct (Text_lineAt (tr_doc tr) (to v)) as [lt|err|];
      [|split; [exact HQ|intros ds' Hx; discriminate Hx]..].
    destruct (classNameToCssDecoration_withoutSpecClass
                (cssClass v) isLine None s HQ)
      as (d & s' & -> & Hd & HQ').
    simpl. split; [exact HQ'|].
    intros ds' [= <-] x Hx. apply RangeSet_filter_In in Hx as [Hx _].
    apply HP, Hx. }
  destruct e as [v|v|v|v| |v|el|]; cbn [applyEffect];
    try apply Hadd; try apply Hrem;
    try (split; [exact HQ|intros ds' [= <-]; exact HP]).
  - unfold_monad. split.
    + destruct HQ as [H1 H2]. split; assumption.
    + intros ds' [= <-] x Hx. apply RangeSet_add_In in Hx as [->|Hx];
        [reflexivity|apply HP, Hx].
  - unfold ret. simpl. split; [exact HQ|].
    intros ds' [= <-] x Hx. apply RangeSet_filter_In in Hx as [Hx _].
    apply HP, Hx.
Qed.

Lemma updateEffectDecorations_withoutSpecClass trs s :
  withoutSpecClass s ->
  withoutSpecClass (snd (updateEffectDecorations trs s)).
Proof.
  intros HQ. unfold updateEffectDecorations, bind, get, modify, ret.
  destruct (forM_invariant rangesWithoutSpecClass withoutSpecClass
              (fun decorations transaction =>
                 forM (effects transaction)
                   (RangeSet_map (changes transaction) decorations)
                   (applyEffect transaction))) with
    (l := trs) (acc := _effectDecorations s) (s := s) as [HQ' HP'].
  - intros acc tr s0 HP0 HQ0.
    apply (forM_invariant rangesWithoutSpecClass withoutSpecClass).
    + intros acc0 e s1. apply applyEffect_withoutSpecClass.
    + apply RangeSet_map_withoutSpecClass, HP0.
    + exact HQ0.
  - exact (proj1 HQ).
  - exact HQ.
  - destruct (forM trs _ _ s) as [[ds|e|] s1]; simpl in *; try exact HQ'.
    destruct HQ' as [_ Hc]. split; [apply HP'; reflexivity|exact Hc].
Qed.

Lemma createOverlayDecorations_withoutSpecClass fuel vw s :
  withoutSpecClass s ->
  withoutSpecClass (snd (createOverlayDecorations fuel vw s)).
Proof.
  set (R := fun a b : Decorator => withoutSpecClass a -> withoutSpecClass b).
  assert (Rrefl : forall a, R a a) by (intros a H; exact H).
  assert (Rtrans : forall a b c, R a b -> R b c -> R a c)
    by (intros a b c H1 H2 H; apply H2, H1, H).
  assert (Hmake : forall name a b s0, R s0 (snd (makeDecoration name a b s0))).
  { intros name a b s0 H. unfold makeDecoration, bind, lift.
    destruct (classNameToCssDecoration_withoutSpecClass
                ("cm-" ++ name)%string (startsWith "line-" name) None s0 H)
      as (d & s' & -> & _ & H').
    destruct (Decoration_range d a b); exact H'. }
  assert (Hpush : forall line p p1 acc tok s0,
            R s0 (snd (pushTokenDecorations line p p1 acc tok s0))).
  { intros. unfold pushTokenDecorations. apply (forM_preserves R); [exact Rrefl|exact Rtrans|].
    intros acc0 name s1.
    destruct (startsWith "line-" name); unfold bind;
      match goal with
      | |- context [makeDecoration ?a ?b ?c ?d] =>
          pose proof (Hmake a b c d) as Hm;
          destruct (makeDecoration a b c d) as [[r|e|] s2]; exact Hm
      end. }
  assert (Hscan : forall o line fuel0 p st acc s0,
            R s0 (snd (scanLine fuel0 o vw line p st acc s0))).
  { intros o line. induction fuel0 as [|fuel0 IH]; intros p st acc s0;
      cbn [scanLine]; destruct (StringStream_eol (lineReader vw line p));
      try apply Rrefl.
    destruct (token o (lineReader vw line p) st) as [[tok p1] st1].
    unfold bind. pose proof (Hpush line p p1 acc tok s0) as Hp.
    destruct (pushTokenDecorations line p p1 acc tok s0) as [[acc1|e|] s1];
      simpl in Hp; try exact Hp.
    destruct (p1 =? p); [exact Hp|].
    eapply Rtrans; [exact Hp|apply IH]. }
  intros HQ. revert HQ. fold (R s (snd (createOverlayDecorations fuel vw s))).
  unfold createOverlayDecorations, bind, get.
  assert (H : R s (snd (forM (_overlays s) [] (scanOverlay fuel vw) s))).
  { apply (forM_preserves R); [exact Rrefl|exact Rtrans|]. intros acc o s0.
    unfold scanOverlay, bind.
    assert (H0 : R s0 (snd (forM (visibleRanges vw)
                              (overlayStartState o vw, acc)
                              (scanVisibleRange fuel o vw) s0))).
    { apply (forM_preserves R); [exact Rrefl|exact Rtrans|]. intros a range s1.
      unfold scanVisibleRange, bind, lift.
      destruct (Text_lineAt (doc vw) (fst range)); try apply Rrefl.
      destruct (Text_lineAt (doc vw) (snd range)); try apply Rrefl.
      apply (forM_preserves R); [exact Rrefl|exact Rtrans|]. intros accL i sL.
      unfold scanLineNumber, bind, lift.
      destruct (Text_line (doc vw) i); try apply Rrefl.
      apply Hscan. }
    destruct (forM (visibleRanges vw) _ _ s0) as [[a1|e|] s1]; exact H0. }
  destruct (forM (_overlays s) [] (scanOverlay fuel vw) s) as [[acc|e|] s1];
    exact H.
Qed.

(** X22: no decoration the decorator builds has a [spec.class].  Starting
    from a state where this holds (a new decorator is one), it still holds
    after any batch of transactions, whatever their effects, and after any
    overlay recompute; and in such a state [getLineClasses] finds no class
    name on any existing line. *)
Theorem getLineClasses_reports_no_added_class (s : Decorator) :
  withoutSpecClass s ->
  (forall trs, withoutSpecClass (snd (updateEffectDecorations trs s)))
  /\ (forall fuel vw,
        withoutSpecClass (snd (createOverlayDecorations fuel vw s)))
  /\ forall n line,
       Text_line (doc (editor s)) (n + 1) = Ok line ->
       getLineClasses n s = (Ok [], s).
Proof.
  intros HQ. split; [|split].
  - intros trs. apply updateEffectDecorations_withoutSpecClass, HQ.
  - intros fuel vw. apply createOverlayDecorations_withoutSpecClass, HQ.
  - intros n line Hline. unfold getLineClasses, bind, get, lift, ret.
    rewrite Hline.
    rewrite getLineClasses_fold by (eapply Text_line_from_le_to; exact Hline).
    f_equal. f_equal. simpl. unfold exactRangeClasses.
    destruct HQ as [Hset _].
    induction (_effectDecorations s) as [|r rest IH]; [reflexivity|].
    cbn [flat_map].
    rewrite (Hset r (or_introl eq_refl)).
    destruct ((from r =? from line) && (to r =? to line)); simpl;
      apply IH; intros x Hx; apply Hset; right; exact Hx.
Qed.

Lemma getLineClasses_reports_no_added_class_witness :
  getLineClasses 0 (run (addLineClass 0 EmptyString "hl") (create sampleView))
  = (Ok [], run (addLineClass 0 EmptyString "hl") (create sampleView)).
Proof.
  apply (proj2 (proj2 (getLineClasses_reports_no_added_class
                         (run (addLineClass 0 EmptyString "hl")
                            (create sampleView))
                         (updateEffectDecorations_withoutSpecClass
                            [effectTransaction
                               [addLineDecorationEffect
                                  {| css_from := 0; css_to := 3;
                                     cssClass := "hl"; css_id := None |}]
                               (create sampleView)]
                            (create sampleView)
                            (create_withoutSpecClass sampleView))))
           0 firstLine).
  reflexivity.
Defined.

Lemma lineSeq_length lines start n :
  length (lineSeq lines start n) = length lines.
Proof.
  revert start n. induction lines as [|x rest IH]; intros start n; simpl;
    [reflexivity|]. rewrite IH. reflexivity.
Qed.

Lemma lineSeq_numbers lines start n l :
  In l (lineSeq lines start n) ->
  n <= number l < n + Z.of_nat (length lines) /\ In (text l) lines.
Proof.
  revert start n. induction lines as [|x rest IH]; intros start n Hin;
    simpl in Hin; [contradiction|].
  destruct Hin as [<-|Hin].
  - simpl. split; [lia|left; reflexivity].
  - apply IH in Hin as [Hn Ht]. split; [simpl length; lia|right; exact Ht].
Qed.

Lemma Text_lineAt_number doc p l :
  Text_lineAt doc p = Ok l -> 1 <= number l <= Text_lines doc.
Proof.
  unfold Text_lineAt.
  destruct ((p <? 0) || (Text_length doc <? p)); [discriminate|].
  destruct (List.find _ _) as [l'|] eqn:E; [|discriminate].
  intros [= <-]. apply List.find_some in E as [Hin _].
  apply lineSeq_numbers in Hin as [Hn _]. unfold Text_lines. lia.
Qed.

Lemma Text_line_total doc i :
  1 <= i <= Text_lines doc -> exists l, Text_line doc i = Ok l.
Proof.
  intros [H1 H2]. unfold Text_line.
  destruct ((i <? 1) || (Text_lines doc <? i)) eqn:E.
  - apply orb_true_iff in E as [E|E]; apply Z.ltb_lt in E; lia.
  - destruct (Text_allLines doc !! Z.to_nat (i - 1)) as [l|] eqn:El;
      [eauto|].
    apply lookup_ge_None in El. unfold Text_allLines in El.
    rewrite lineSeq_length in El. unfold Text_lines in H2. lia.
Qed.

(** A loop whose iterations all hand their accumulator and the state back
    unchanged does so itself. *)
Lemma forM_idle {A B} (body : B -> A -> M B) l :
  (forall acc x s, In x l -> body acc x s = (Ok acc, s)) ->
  forall acc s, forM l acc body s = (Ok acc, s).
Proof.
  induction l as [|x rest IH]; intros Hbody acc s; cbn [forM];
    [reflexivity|].
  unfold bind. rewrite (Hbody acc x s (or_introl eq_refl)).
  apply IH. intros. apply Hbody. right. assumption.
Qed.

(** X23: where every line of the document is empty, no overlay is asked for
    a token: whatever overlays are registered, also ones that would never
    move the stream, and without any fuel, a recompute over visible ranges
    that lie in the document returns the empty decoration set and leaves the
    decorator exactly as it was. *)
Theorem empty_lines_have_no_overlay_decorations (fuel : nat)
  (vw : EditorView) (s : Decorator) :
  Forall (fun l => l = EmptyString) (doc vw) ->
  Forall (fun range => 0 <= fst range <= Text_length (doc vw)
                       /\ 0 <= snd range <= Text_length (doc vw))
    (visibleRanges vw) ->
  createOverlayDecorations fuel vw s = (Ok [], s).
Proof.
  intros Hempty Hranges. unfold createOverlayDecorations, bind, get.
  assert (Hline : forall o acc i s0,
            1 <= i <= Text_lines (doc vw) ->
            scanLineNumber fuel o vw acc i s0 = (Ok acc, s0)).
  { intros o acc i s0 Hi. unfold scanLineNumber, bind, lift.
    destruct (Text_line_total _ _ Hi) as [line Hl]. rewrite Hl.
    apply Text_line_In in Hl. unfold Text_allLines in Hl.
    apply lineSeq_numbers in Hl as [_ Ht].
    rewrite Forall_forall in Hempty.
    apply list_elem_of_In, Hempty in Ht.
    destruct acc as [st acc]. destruct fuel; cbn [scanLine];
      rewrite lineReader_eol, Ht; reflexivity. }
  assert (Hrange : forall o acc range s0,
            In range (visibleRanges vw) ->
            scanVisibleRange fuel o vw acc range s0 = (Ok acc, s0)).
  { intros o acc range s0 Hin. unfold scanVisibleRange, bind, lift.
    rewrite Forall_forall in Hranges.
    apply list_elem_of_In, Hranges in Hin as [Hf Ht].
    destruct (Text_lineAt_total _ _ Hf) as [lf Hlf].
    destruct (Text_lineAt_total _ _ Ht) as [lt Hlt].
    rewrite Hlf, Hlt. apply forM_idle. intros acc0 i s1 Hi.
    apply Hline. apply list_elem_of_In, elem_of_seqZ in Hi.
    apply Text_lineAt_number in Hlf, Hlt. lia. }
  rewrite forM_idle; [reflexivity|].
  intros acc o s0 _. unfold scanOverlay, bind.
  rewrite forM_idle; [reflexivity|].
  intros acc0 range s1 Hin. apply Hrange, Hin.
Qed.

Lemma empty_lines_have_no_overlay_decorations_witness :
  createOverlayDecorations 0 (emptyDocumentView 4 2)
    (run (addOverlay stuckOverlay) (create (emptyDocumentView 4 2)))
  = (Ok [], run (addOverlay stuckOverlay) (create (emptyDocumentView 4 2))).
Proof.
  apply (empty_lines_have_no_overlay_decorations 0 (emptyDocumentView 4 2)
           (run (addOverlay stuckOverlay) (create (emptyDocumentView 4 2)))).
  - repeat constructor.
  - repeat constructor; vm_compute; discriminate.
Defined.
